(** * Waveform analyzer: selection model, drag state machine, mean display and copy

    A shallow embedding of [src/main.py] (class [WaveformAnalyzer]).

    Modelling conventions.
    - Python [int] is [Z].
    - A finite Python [float] is the rational it denotes; the float
      subtraction and addition of the pointer arithmetic round their exact
      result to the nearest binary64 value, ties to even ([B64.rnd]).  A
      number that is an [int] or a [float] at run time is a [Num.num];
      comparisons and [int()] are exact, as in Python.  [B64.rnd] keeps 53
      significant bits at every exponent.  That is binary64 on the
      operations of this program: magnitudes of [2^1024] and more do not
      occur (pointer coordinates are finite doubles, indices are array
      indices), and a sum or difference of two doubles that falls in the
      subnormal range is exact.
    - A cell of a column and the mean are [f64]: a finite number, minus
      zero, an infinity or NaN.  [np.mean] belongs to numpy, not to this
      program: the methods are defined, and the theorems proved, for every
      function [np_mean] from slices to [f64].
    - Python [str] is [string] holding the UTF-8 bytes of the text.
    - The object [self] is the record [WaveformAnalyzer]; every method is a
      function from the record (and the event) to the updated record.
    - The widgets, the figure and the message boxes are collaborators; of
      them the model keeps what the methods read back: the two [StringVar]s,
      the drawn rectangle and the clipboard together with a log of the
      operations issued on it. *)

From Stdlib Require Import ZArith QArith Qabs Qround Qminmax Qpower Lqa Lia.
From Stdlib Require Import List Bool Ascii String DecimalString.
Import ListNotations.

Local Open Scope Z_scope.

(** ** Python primitives *)

Module Py.

(** [int(x)] on a float: truncation towards zero. *)
Definition int (x : Q) : Z :=
  if Qle_bool 0 x then Qfloor x else Qceiling x.

(** [abs(x)] on a float. *)
Definition abs (x : Q) : Q := Qabs x.

(** Comparison operators on numbers, as booleans. *)
Definition ltb (x y : Q) : bool := negb (Qle_bool y x).
Definition leb (x y : Q) : bool := Qle_bool x y.

(** Normalisation of one bound of a slice [l[a:b]] on a sequence of length
    [len]: a negative bound counts from the end, and both bounds saturate. *)
Definition slice_index (len i : Z) : Z :=
  if i <? 0 then Z.max 0 (i + len) else Z.min i len.

(** [l[a:b]]. *)
Definition slice {A : Type} (l : list A) (a b : Z) : list A :=
  let len := Z.of_nat (List.length l) in
  let a' := slice_index len a in
  let b' := slice_index len b in
  firstn (Z.to_nat (b' - a')) (skipn (Z.to_nat a') l).

End Py.

(** ** Text: formatting, searching, splitting, stripping *)

Module Text.

Local Open Scope string_scope.

(** Round to the nearest integer, ties to the even one. *)
Definition round_half_even (q : Q) : Z :=
  let n := Qnum q in
  let d := Z.pos (Qden q) in
  let fl := n / d in
  let r := n mod d in
  match 2 * r ?= d with
  | Lt => fl
  | Gt => fl + 1
  | Eq => if Z.even fl then fl else fl + 1
  end.

Definition digit_char (d : Z) : ascii :=
  ascii_of_nat (48 + Z.to_nat d).

Definition string_of_nonneg (z : Z) : string :=
  NilZero.string_of_uint (N.to_uint (Z.to_N z)).

(** The four digits after the point, [f] in [0, 9999]. *)
Definition frac4 (f : Z) : string :=
  String (digit_char (f / 1000 mod 10))
    (String (digit_char (f / 100 mod 10))
       (String (digit_char (f / 10 mod 10))
          (String (digit_char (f mod 10)) ""))).

(** [f"{q:.4f}"]: sign, integer part, point, four digits.  The value is
    rounded to the nearest multiple of 1/10000, ties to even, on the exact
    rational; a negative value that rounds to zero keeps its sign, as the
    float does. *)
Definition format_4f (q : Q) : string :=
  let m := Z.abs (round_half_even (q * inject_Z 10000)) in
  (if Qle_bool 0 q then "" else "-")
    ++ string_of_nonneg (m / 10000) ++ "." ++ frac4 (m mod 10000).

(** [sub in s]. *)
Definition contains (sub s : string) : bool :=
  match index 0 sub s with
  | Some _ => true
  | None => false
  end.

(** [s.split(sep)] for a non-empty separator; every round removes at least
    one byte, so [S (length s)] rounds are enough. *)
Fixpoint split_fuel (fuel : nat) (sep s : string) : list string :=
  match fuel with
  | O => [s]
  | S fuel' =>
      match index 0 sep s with
      | None => [s]
      | Some i =>
          let k := (i + String.length sep)%nat in
          substring 0 i s
            :: split_fuel fuel' sep (substring k (String.length s - k) s)
      end
  end.

Definition split (sep s : string) : list string :=
  split_fuel (S (String.length s)) sep s.

(** ASCII white space, as [str.strip()] removes it. *)
Definition is_space (c : ascii) : bool :=
  let n := nat_of_ascii c in
  ((9 <=? n) && (n <=? 13) || (28 <=? n) && (n <=? 32))%nat.

Fixpoint lstrip (s : string) : string :=
  match s with
  | "" => ""
  | String c s' => if is_space c then lstrip s' else s
  end.

Fixpoint rstrip (s : string) : string :=
  match s with
  | "" => ""
  | String c s' =>
      match rstrip s' with
      | "" => if is_space c then "" else String c ""
      | r => String c r
      end
  end.

Definition strip (s : string) : string := rstrip (lstrip s).

(** Character classes used to describe what [format_4f] prints. *)
Definition digit_ascii (c : ascii) : bool :=
  let n := nat_of_ascii c in ((48 <=? n) && (n <=? 57))%nat.

Definition numeric_char (c : ascii) : bool :=
  let n := nat_of_ascii c in
  (digit_ascii c || (n =? 45) || (n =? 46))%nat.

Fixpoint all_chars (p : ascii -> bool) (s : string) : bool :=
  match s with
  | "" => true
  | String c s' => p c && all_chars p s'
  end.

End Text.

(** ** Binary64 rounding *)

Module B64.

Definition pow2 (z : Z) : Q := Qpower 2 z.

(** [floor (log2 |q|)] for [q <> 0]. *)
Definition ilog2 (q : Q) : Z :=
  let e0 := Z.log2 (Z.abs (Qnum q)) - Z.log2 (Z.pos (Qden q)) in
  if Qle_bool (pow2 e0) (Qabs q) then e0 else e0 - 1.

(** The binary64 value nearest to [q], ties to the even significand: [q] is
    scaled so that its magnitude lies in [2^52, 2^53), rounded to an
    integer, and scaled back. *)
Definition rnd (q : Q) : Q :=
  if Qeq_bool q 0 then 0%Q
  else
    let u := pow2 (ilog2 q - 52) in
    Qred (inject_Z (Text.round_half_even (q / u)) * u).

End B64.

(** ** Python numbers: an [int] or a [float] *)

Module Num.

Inductive num : Type :=
| Int (z : Z)
| Float (q : Q).

(** The real number denoted. *)
Definition val (a : num) : Q :=
  match a with
  | Int z => inject_Z z
  | Float q => q
  end.

(** Conversion of an operand of mixed arithmetic to [float]. *)
Definition to_float (a : num) : Q :=
  match a with
  | Int z => B64.rnd (inject_Z z)
  | Float q => q
  end.

(** [a < b] and [a <= b]: Python compares an [int] with a [float] by
    value. *)
Definition lt (a b : num) : bool := Py.ltb (val a) (val b).
Definition le (a b : num) : bool := Py.leb (val a) (val b).

(** [min(a, b)] and [max(a, b)] return one of their arguments, the first
    one unless the second is strictly smaller (greater). *)
Definition min (a b : num) : num := if lt b a then b else a.
Definition max (a b : num) : num := if lt a b then b else a.

(** [a - b] and [a + b]: exact on two [int]s, a rounded float operation
    otherwise. *)
Definition sub (a b : num) : num :=
  match a, b with
  | Int x, Int y => Int (x - y)
  | _, _ => Float (B64.rnd (to_float a - to_float b))
  end.

Definition add (a b : num) : num :=
  match a, b with
  | Int x, Int y => Int (x + y)
  | _, _ => Float (B64.rnd (to_float a + to_float b))
  end.

Definition abs (a : num) : num :=
  match a with
  | Int z => Int (Z.abs z)
  | Float q => Float (Py.abs q)
  end.

(** [int(a)]. *)
Definition int (a : num) : Z :=
  match a with
  | Int z => z
  | Float q => Py.int q
  end.

End Num.

(** ** Column values *)

(** A float64 cell, and the result of [np.mean]. *)
Inductive f64 : Type :=
| Fin (q : Q)
| NegZero
| Inf (negative : bool)
| NaN.

(** [f"{v:.4f}"]. *)
Definition format_float (v : f64) : string :=
  match v with
  | Fin q => Text.format_4f q
  | NegZero => "-0.0000"
  | Inf false => "inf"
  | Inf true => "-inf"
  | NaN => "nan"
  end.

(** ** The object state *)

(** [self.drag_type]: [None] or one of the strings "start", "end", "move". *)
Inductive DragType : Type :=
| DragStart
| DragEnd
| DragMove.

(** One column of the table; a missing cell is [NaN]. *)
Definition Column : Type := list f64.

(** The table [self.df]: header names with their columns. *)
Definition DataFrame : Type := list (string * Column).

(** A clipboard operation issued on the Tk root. *)
Inductive ClipOp : Type :=
| ClipboardClear
| ClipboardAppend (text : string)
| RootUpdate.

Record WaveformAnalyzer : Type := mkAnalyzer {
  df : option DataFrame;
  col_var : string;
  col_data : option (list f64);
  selection_rect : option (Z * Z);
  start_idx : Z;
  end_idx : Z;
  is_dragging : bool;
  drag_type : option DragType;
  (** [self.drag_offset], a float, is not created by [__init__]: [None] is
      the missing attribute. *)
  drag_offset : option Q;
  mean_var : string;
  copy_hint_var : string;
  copy_hint_foreground : string;
  clipboard : string;
  clip_log : list ClipOp
}.

(** A matplotlib mouse event: [inaxes] is [event.inaxes == self.ax];
    [event.xdata] is the double nearest to [xraw]. *)
Record MouseEvent : Type := mkEvent {
  inaxes : bool;
  xraw : Q
}.

Definition xdata (ev : MouseEvent) : Q := B64.rnd (xraw ev).

Definition label_prefix : string := "选中区域平均值：".
Definition placeholder_text : string := "选中区域平均值：--".

(** [__init__]. *)
Definition init : WaveformAnalyzer :=
  {| df := None;
     col_var := "";
     col_data := None;
     selection_rect := None;
     start_idx := 0;
     end_idx := 20000;
     is_dragging := false;
     drag_type := None;
     drag_offset := None;
     mean_var := placeholder_text;
     copy_hint_var := "";
     copy_hint_foreground := "green";
     clipboard := "";
     clip_log := [] |}.

Definition len_data (st : WaveformAnalyzer) : Z :=
  match col_data st with
  | Some d => Z.of_nat (List.length d)
  | None => 0
  end.

(** ** pandas *)

(** [series.dropna().values]. *)
Fixpoint dropna (c : Column) : list f64 :=
  match c with
  | [] => []
  | NaN :: c' => dropna c'
  | v :: c' => v :: dropna c'
  end.

(** [df[name]]: the first column under that header, if any. *)
Fixpoint lookup_column (name : string) (t : DataFrame) : option Column :=
  match t with
  | [] => None
  | (h, c) :: t' => if String.eqb h name then Some c else lookup_column name t'
  end.

(** ** Field updates *)

Definition set_df (t : option DataFrame) (st : WaveformAnalyzer) :=
  mkAnalyzer t (col_var st) (col_data st) (selection_rect st) (start_idx st)
    (end_idx st) (is_dragging st) (drag_type st) (drag_offset st)
    (mean_var st) (copy_hint_var st) (copy_hint_foreground st) (clipboard st)
    (clip_log st).

Definition set_col_var (name : string) (st : WaveformAnalyzer) :=
  mkAnalyzer (df st) name (col_data st) (selection_rect st) (start_idx st)
    (end_idx st) (is_dragging st) (drag_type st) (drag_offset st)
    (mean_var st) (copy_hint_var st) (copy_hint_foreground st) (clipboard st)
    (clip_log st).

Definition set_col_data (d : option (list f64)) (st : WaveformAnalyzer) :=
  mkAnalyzer (df st) (col_var st) d (selection_rect st) (start_idx st)
    (end_idx st) (is_dragging st) (drag_type st) (drag_offset st)
    (mean_var st) (copy_hint_var st) (copy_hint_foreground st) (clipboard st)
    (clip_log st).

Definition set_selection_rect (r : option (Z * Z)) (st : WaveformAnalyzer) :=
  mkAnalyzer (df st) (col_var st) (col_data st) r (start_idx st)
    (end_idx st) (is_dragging st) (drag_type st) (drag_offset st)
    (mean_var st) (copy_hint_var st) (copy_hint_foreground st) (clipboard st)
    (clip_log st).

Definition set_start_idx (s : Z) (st : WaveformAnalyzer) :=
  mkAnalyzer (df st) (col_var st) (col_data st) (selection_rect st) s
    (end_idx st) (is_dragging st) (drag_type st) (drag_offset st)
    (mean_var st) (copy_hint_var st) (copy_hint_foreground st) (clipboard st)
    (clip_log st).

Definition set_end_idx (e : Z) (st : WaveformAnalyzer) :=
  mkAnalyzer (df st) (col_var st) (col_data st) (selection_rect st)
    (start_idx st) e (is_dragging st) (drag_type st) (drag_offset st)
    (mean_var st) (copy_hint_var st) (copy_hint_foreground st) (clipboard st)
    (clip_log st).

Definition set_drag (b : bool) (t : option DragType) (st : WaveformAnalyzer) :=
  mkAnalyzer (df st) (col_var st) (col_data st) (selection_rect st)
    (start_idx st) (end_idx st) b t (drag_offset st)
    (mean_var st) (copy_hint_var st) (copy_hint_foreground st) (clipboard st)
    (clip_log st).

Definition set_drag_offset (o : option Q) (st : WaveformAnalyzer) :=
  mkAnalyzer (df st) (col_var st) (col_data st) (selection_rect st)
    (start_idx st) (end_idx st) (is_dragging st) (drag_type st) o
    (mean_var st) (copy_hint_var st) (copy_hint_foreground st) (clipboard st)
    (clip_log st).

Definition set_mean_var (s : string) (st : WaveformAnalyzer) :=
  mkAnalyzer (df st) (col_var st) (col_data st) (selection_rect st)
    (start_idx st) (end_idx st) (is_dragging st) (drag_type st)
    (drag_offset st) s (copy_hint_var st) (copy_hint_foreground st)
    (clipboard st) (clip_log st).

Definition set_copy_hint (s : string) (st : WaveformAnalyzer) :=
  mkAnalyzer (df st) (col_var st) (col_data st) (selection_rect st)
    (start_idx st) (end_idx st) (is_dragging st) (drag_type st)
    (drag_offset st) (mean_var st) s (copy_hint_foreground st)
    (clipboard st) (clip_log st).

Definition set_copy_hint_foreground (c : string) (st : WaveformAnalyzer) :=
  mkAnalyzer (df st) (col_var st) (col_data st) (selection_rect st)
    (start_idx st) (end_idx st) (is_dragging st) (drag_type st)
    (drag_offset st) (mean_var st) (copy_hint_var st) c
    (clipboard st) (clip_log st).

Definition set_clipboard (c : string) (op : ClipOp) (st : WaveformAnalyzer) :=
  mkAnalyzer (df st) (col_var st) (col_data st) (selection_rect st)
    (start_idx st) (end_idx st) (is_dragging st) (drag_type st)
    (drag_offset st) (mean_var st) (copy_hint_var st)
    (copy_hint_foreground st) c (clip_log st ++ [op]).

(** ** How a method ends *)

Inductive PyError : Type :=
| AttributeError
| KeyError
| IndexError.

Inductive Signal : Type :=
| Returned
| Raised (e : PyError).

(** What the Tk clipboard does during one copy: nothing goes wrong, or one
    of the three calls inside the [try] block raises. *)
Inductive TkFault : Type :=
| NoFault
| FailClear
| FailAppend
| FailUpdate.

(** A callback of the event loop. *)
Inductive Event : Type :=
| FileOpened (picked : option DataFrame)
| ComboboxSelected (name : string)
| ButtonPress (ev : MouseEvent)
| MotionNotify (ev : MouseEvent)
| ButtonRelease (ev : MouseEvent)
| CopyClicked (fault : TkFault).

(** What [pd.read_excel] and [pd.read_csv] do with a path: they raise (the
    text is [str(e)]) or return a table. *)
Definition Reader : Type := string -> string + DataFrame.

(** The message box a call of [load_file] ends with. *)
Inductive MessageBox : Type :=
| NoBox
| ShowError (title text : string)
| ShowInfo (title text : string).

(** ** Helpers of the statements and sample data *)

(** The range is ordered and starts inside the data. *)
Definition ordered (st : WaveformAnalyzer) : Prop :=
  0 <= start_idx st < end_idx st.

(** The selection invariant: [0 <= start < end <= length - 1]. *)
Definition selection_invariant (st : WaveformAnalyzer) : Prop :=
  0 <= start_idx st < end_idx st /\ end_idx st <= len_data st - 1.

(** The elements [data[a], ..., data[b]], both ends included, read one index
    at a time. *)
Definition data_range (d : list f64) (a b : Z) : list f64 :=
  map (fun i => nth i d (Fin 0)) (seq (Z.to_nat a) (Z.to_nat (b - a + 1))).

(** A move that is not ignored: data loaded, a drag active, pointer inside. *)
Definition move_live (st : WaveformAnalyzer) (ev : MouseEvent) : Prop :=
  col_data st <> None /\ is_dragging st = true /\ inaxes ev = true.

(** The edge test of [on_mouse_press], [abs(x - idx) < 1000]: the
    difference is the float one. *)
Definition within_tolerance (x : Q) (idx : Z) : bool :=
  Num.lt (Num.abs (Num.sub (Num.Float x) (Num.Int idx))) (Num.Int 1000).

(** With a column loaded, [end_idx] is at most its length. *)
Definition within_length (st : WaveformAnalyzer) : Prop :=
  forall d : list f64,
    col_data st = Some d -> end_idx st <= Z.of_nat (List.length d).

(** The three drag fields agree with each other. *)
Definition drag_consistent (st : WaveformAnalyzer) : Prop :=
  (is_dragging st = true <-> drag_type st <> None) /\
  (drag_type st = Some DragMove -> drag_offset st <> None) /\
  (is_dragging st = true -> col_data st <> None).

(** The display shows the placeholder or the label with the text of a
    float. *)
Definition displayed_form (st : WaveformAnalyzer) : Prop :=
  mean_var st = placeholder_text \/
  exists v : f64, mean_var st = (label_prefix ++ format_float v)%string.


(** A call of [load_column_data] that stopped in its empty-column branch. *)
Definition empty_refused (r : WaveformAnalyzer * Signal) : bool :=
  match snd r with
  | Raised AttributeError => true
  | _ => false
  end.

Definition at_x (x : Q) : MouseEvent := {| inaxes := true; xraw := x |}.
Definition outside : MouseEvent := {| inaxes := false; xraw := 0%Q |}.

Definition table_one : DataFrame :=
  [("a"%string, [Fin 1; Fin 2; Fin 3; Fin 4; Fin 5]);
   ("empty"%string, [NaN; NaN]);
   ("single"%string, [NaN; Fin 7])].

Definition table_wide : DataFrame :=
  [("w"%string, repeat (Fin 1) 2001)].

Definition table_long : DataFrame :=
  [("w"%string, repeat (Fin 1) 3001)].

(** A stand-in for [np.mean] to run the examples with: the left-to-right
    binary64 sum of finite cells over the count.  It is not claimed to be
    numpy's order of summation; no theorem depends on it. *)
Fixpoint sample_sum (acc : Q) (l : list f64) : option Q :=
  match l with
  | [] => Some acc
  | Fin q :: l' => sample_sum (B64.rnd (acc + q)) l'
  | NegZero :: l' => sample_sum acc l'
  | _ => None
  end.

Definition sample_mean (l : list f64) : f64 :=
  match l, sample_sum 0 l with
  | _ :: _, Some s => Fin (B64.rnd (s / inject_Z (Z.of_nat (List.length l))))
  | _, _ => NaN
  end.

(** [s.endswith(suf)]. *)
Definition endswith (suf s : string) : bool :=
  let n := String.length s in
  let k := String.length suf in
  (k <=? n)%nat && String.eqb (substring (n - k) k s) suf.

(** [len(df)]: the columns of a table share one index, so the row count is
    the length of any column; a table without columns has no rows. *)
Definition nrows (t : DataFrame) : nat :=
  match t with
  | [] => 0%nat
  | (_, c) :: _ => List.length c
  end.

Definition str_of_nat (n : nat) : string :=
  Text.string_of_nonneg (Z.of_nat n).

(** ** The methods *)

Section Program.

(** [np.mean], on the slice handed to it. *)
Variable np_mean : list f64 -> f64.

(** [_draw_selection_rect]: forces [end_idx] above [start_idx], then draws
    the one rectangle over [start_idx, end_idx]. *)
Definition _draw_selection_rect (st : WaveformAnalyzer) : WaveformAnalyzer :=
  let st1 := set_selection_rect None st in
  let st2 :=
    if start_idx st1 >=? end_idx st1
    then set_end_idx (start_idx st1 + 1) st1
    else st1 in
  set_selection_rect (Some (start_idx st2, end_idx st2)) st2.

(** [_calculate_mean]. *)
Definition _calculate_mean (st : WaveformAnalyzer) : WaveformAnalyzer :=
  match col_data st with
  | None => st
  | Some d =>
      let start := Z.max 0 (start_idx st) in
      let end_ := Z.min (Z.of_nat (List.length d) - 1) (end_idx st) in
      if start >=? end_ then set_mean_var placeholder_text st
      else
        let selected_data := Py.slice d start (end_ + 1) in
        let mean_val := np_mean selected_data in
        set_mean_var (label_prefix ++ format_float mean_val) st
  end.

(** [load_file], given what the dialog and the reader produced: [None] when
    the dialog is cancelled, the extension is not supported or the reader
    raises; the table otherwise. *)
Definition load_file (picked : option DataFrame) (st : WaveformAnalyzer)
  : WaveformAnalyzer :=
  match picked with
  | None => st
  | Some t => set_df (Some t) st
  end.

(** [load_file], from the path the dialog returned (empty when cancelled). *)
Definition load_file_path (read_excel read_csv : Reader) (file_path : string)
  (st : WaveformAnalyzer) : WaveformAnalyzer * MessageBox :=
  if String.eqb file_path "" then (st, NoBox)
  else
    let finish (r : string + DataFrame) :=
      match r with
      | inl msg => (st, ShowError "读取失败" ("文件读取出错：" ++ msg))
      | inr t =>
          (set_df (Some t) st,
           ShowInfo "成功"
             ("已加载文件，共" ++ str_of_nat (nrows t) ++ "行数据，"
                ++ str_of_nat (List.length t) ++ "列"))
      end in
    if endswith ".xlsx" file_path || endswith ".xls" file_path
    then finish (read_excel file_path)
    else if endswith ".csv" file_path
    then finish (read_csv file_path)
    else (st, ShowError "错误" "不支持的文件格式！").

(** [load_column_data].  In the empty-column branch the attribute lookup
    [messagebox.warning] raises: [tkinter.messagebox] has [showwarning] and
    no [warning].  No box is shown and the method ends there, after
    [col_data] has been assigned. *)
Definition load_column_data (st : WaveformAnalyzer)
  : WaveformAnalyzer * Signal :=
  match df st with
  | None => (st, Returned)
  | Some t =>
      let col_name := col_var st in
      if String.eqb col_name "" then (st, Returned)
      else
        match lookup_column col_name t with
        | None => (st, Raised KeyError)
        | Some c =>
            let st1 := set_col_data (Some (dropna c)) st in
            if len_data st1 =? 0
            then (st1, Raised AttributeError)
            else
              let st2 := set_start_idx 0 st1 in
              let st3 := set_end_idx (Z.min 20000 (len_data st2 - 1)) st2 in
              (_calculate_mean (_draw_selection_rect st3), Returned)
        end
  end.

(** [on_mouse_press].  The recorded offset is a float, as [event.xdata]
    is. *)
Definition on_mouse_press (ev : MouseEvent) (st : WaveformAnalyzer)
  : WaveformAnalyzer :=
  match col_data st with
  | None => st
  | Some _ =>
      let x := Num.Float (xdata ev) in
      if negb (inaxes ev) then st
      else if Num.lt (Num.abs (Num.sub x (Num.Int (start_idx st))))
                (Num.Int 1000)
      then set_drag true (Some DragStart) st
      else if Num.lt (Num.abs (Num.sub x (Num.Int (end_idx st))))
                (Num.Int 1000)
      then set_drag true (Some DragEnd) st
      else if Num.le (Num.Int (start_idx st)) x
              && Num.le x (Num.Int (end_idx st))
      then set_drag_offset
             (Some (Num.val (Num.sub x (Num.Int (start_idx st)))))
             (set_drag true (Some DragMove) st)
      else st
  end.

(** [on_mouse_move]. *)
Definition on_mouse_move (ev : MouseEvent) (st : WaveformAnalyzer)
  : WaveformAnalyzer * Signal :=
  match col_data st with
  | None => (st, Returned)
  | Some _ =>
      if negb (is_dragging st) || negb (inaxes ev) then (st, Returned)
      else
        let new_x :=
          Num.max (Num.Int 0)
            (Num.min (Num.Int (len_data st - 1)) (Num.Float (xdata ev))) in
        let redraw st' := (_calculate_mean (_draw_selection_rect st'), Returned) in
        match drag_type st with
        | Some DragStart =>
            redraw (set_start_idx (Z.min (Num.int new_x) (end_idx st - 1)) st)
        | Some DragEnd =>
            redraw (set_end_idx (Z.max (Num.int new_x) (start_idx st + 1)) st)
        | Some DragMove =>
            match drag_offset st with
            | None => (st, Raised AttributeError)
            | Some off =>
                let width := end_idx st - start_idx st in
                let new_start :=
                  Num.max (Num.Int 0)
                    (Num.min (Num.Int (len_data st - width))
                       (Num.sub new_x (Num.Float off))) in
                let new_end := Num.add new_start (Num.Int width) in
                redraw (set_end_idx (Num.int new_end)
                          (set_start_idx (Num.int new_start) st))
            end
        | None => redraw st
        end
  end.

(** [on_mouse_release]. *)
Definition on_mouse_release (ev : MouseEvent) (st : WaveformAnalyzer)
  : WaveformAnalyzer :=
  set_drag false None st.

(** [copy_result_to_clipboard].  The [root.after(3000, ...)] timers that
    blank the hint later are not part of the call's own effect. *)
Definition copy_result_to_clipboard (fault : TkFault) (st : WaveformAnalyzer)
  : WaveformAnalyzer * Signal :=
  let st0 := set_copy_hint "" st in
  let mean_text := mean_var st0 in
  if Text.contains "：--" mean_text
  then (set_copy_hint_foreground "red" (set_copy_hint "暂无有效数据" st0),
        Returned)
  else
    match nth_error (Text.split "：" mean_text) 1 with
    | None => (st0, Raised IndexError)
    | Some part =>
        let mean_value := Text.strip part in
        let failed st' :=
          (set_copy_hint_foreground "red" (set_copy_hint "复制失败" st'),
           Returned) in
        match fault with
        | FailClear => failed st0
        | _ =>
            let st1 := set_clipboard "" ClipboardClear st0 in
            match fault with
            | FailAppend => failed st1
            | _ =>
                let st2 :=
                  set_clipboard (clipboard st1 ++ mean_value)
                    (ClipboardAppend mean_value) st1 in
                match fault with
                | FailUpdate => failed st2
                | _ =>
                    let st3 := set_clipboard (clipboard st2) RootUpdate st2 in
                    (set_copy_hint_foreground "green"
                       (set_copy_hint "复制成功" st3), Returned)
                end
            end
        end
    end.

(** ** The event loop *)

(** One callback.  An exception leaves a callback where it is raised; the
    state reached by then stays. *)
Definition step (e : Event) (st : WaveformAnalyzer) : WaveformAnalyzer :=
  match e with
  | FileOpened picked => load_file picked st
  | ComboboxSelected name => fst (load_column_data (set_col_var name st))
  | ButtonPress ev => on_mouse_press ev st
  | MotionNotify ev => fst (on_mouse_move ev st)
  | ButtonRelease ev => on_mouse_release ev st
  | CopyClicked fault => fst (copy_result_to_clipboard fault st)
  end.

Definition run (es : list Event) (st : WaveformAnalyzer) : WaveformAnalyzer :=
  fold_left (fun s e => step e s) es st.

Definition opened (t : DataFrame) (name : string) : WaveformAnalyzer :=
  run [FileOpened (Some t); ComboboxSelected name] init.

(** The text on display is what [_calculate_mean] gives for the current
    column and range. *)
Definition display_in_sync (st : WaveformAnalyzer) : Prop :=
  mean_var (_calculate_mean st) = mean_var st.

(** No column selection of the session stops in the empty-column branch. *)
Fixpoint no_empty_selection (es : list Event) (st : WaveformAnalyzer) : bool :=
  match es with
  | [] => true
  | e :: es' =>
      match e with
      | ComboboxSelected name =>
          negb (empty_refused (load_column_data (set_col_var name st)))
      | _ => true
      end && no_empty_selection es' (step e st)
  end.

(** Every column loaded during the session has at most [2^53] values. *)
Fixpoint short_columns (es : list Event) (st : WaveformAnalyzer) : bool :=
  match es with
  | [] => true
  | e :: es' =>
      (len_data (step e st) <=? 2 ^ 53) && short_columns es' (step e st)
  end.

(** * Proofs *)

Arguments B64.rnd : simpl never.
Arguments xdata : simpl never.

(** ** Numbers by their value *)

Section Numbers.

Local Open Scope Q_scope.

Lemma int_comp (x y : Q) : x == y -> Py.int x = Py.int y.
Proof.
  intros H. unfold Py.int. rewrite (Qleb_comp 0 0 (Qeq_refl 0) x y H).
  destruct (Qle_bool 0 y); [now apply Qfloor_comp | now apply Qceiling_comp].
Qed.

Lemma int_val (a : Num.num) : Num.int a = Py.int (Num.val a).
Proof.
  destruct a as [z | q]; [| reflexivity].
  simpl. unfold Py.int.
  destruct (Qle_bool 0 (inject_Z z)); [now rewrite Qfloor_Z | now rewrite Qceiling_Z].
Qed.

Lemma lt_spec (a b : Num.num) : Num.lt a b = true <-> Num.val a < Num.val b.
Proof.
  unfold Num.lt, Py.ltb. destruct (Qle_bool (Num.val b) (Num.val a)) eqn:E; simpl.
  - apply Qle_bool_iff in E. split; [discriminate |].
    intros H. exfalso. exact (Qlt_not_le _ _ H E).
  - split; [intros _ | reflexivity].
    apply Qnot_le_lt. intros H. apply Qle_bool_iff in H. congruence.
Qed.

Lemma lt_false (a b : Num.num) : Num.lt a b = false <-> Num.val b <= Num.val a.
Proof.
  unfold Num.lt, Py.ltb. rewrite negb_false_iff. apply Qle_bool_iff.
Qed.

Lemma val_min (a b : Num.num) :
  Num.val (Num.min a b) == Qmin (Num.val a) (Num.val b).
Proof.
  unfold Num.min. destruct (Num.lt b a) eqn:E.
  - apply lt_spec in E. symmetry. apply Q.min_r. now apply Qlt_le_weak.
  - apply lt_false in E. symmetry. now apply Q.min_l.
Qed.

Lemma val_max (a b : Num.num) :
  Num.val (Num.max a b) == Qmax (Num.val a) (Num.val b).
Proof.
  unfold Num.max. destruct (Num.lt a b) eqn:E.
  - apply lt_spec in E. symmetry. apply Q.max_r. now apply Qlt_le_weak.
  - apply lt_false in E. symmetry. now apply Q.max_l.
Qed.

(** [max(0, min(hi, v))] by its value. *)
Lemma val_clamp (hi : Z) (v : Num.num) :
  Num.val (Num.max (Num.Int 0) (Num.min (Num.Int hi) v)) ==
  Qmax 0 (Qmin (inject_Z hi) (Num.val v)).
Proof.
  rewrite val_max, val_min. reflexivity.
Qed.

Lemma int_clamp (hi : Z) (v : Num.num) :
  Num.int (Num.max (Num.Int 0) (Num.min (Num.Int hi) v)) =
  Py.int (Qmax 0 (Qmin (inject_Z hi) (Num.val v))).
Proof.
  rewrite int_val. apply int_comp, val_clamp.
Qed.

End Numbers.

(** ** Truncation and clamping *)

Section Truncation.

Local Open Scope Q_scope.

Lemma Qfloor_unique (x : Q) (n : Z) :
  inject_Z n <= x -> x < inject_Z (n + 1) -> Qfloor x = n.
Proof.
  intros Hlo Hhi.
  assert (Hle : (n <= Qfloor x)%Z).
  { rewrite <- (Qfloor_Z n). now apply Qfloor_resp_le. }
  assert (Hlt : (Qfloor x < n + 1)%Z).
  { rewrite Zlt_Qlt. eapply Qle_lt_trans; [apply Qfloor_le | exact Hhi]. }
  lia.
Qed.

Lemma Qfloor_plus_Z (x : Q) (w : Z) :
  Qfloor (x + inject_Z w) = (Qfloor x + w)%Z.
Proof.
  apply Qfloor_unique.
  - rewrite inject_Z_plus. apply Qplus_le_l. apply Qfloor_le.
  - replace (Qfloor x + w + 1)%Z with ((Qfloor x + 1) + w)%Z by lia.
    rewrite inject_Z_plus. apply Qplus_lt_l. apply Qlt_floor.
Qed.

Lemma int_nonneg (x : Q) : 0 <= x -> Py.int x = Qfloor x.
Proof.
  intros H. unfold Py.int.
  destruct (Qle_bool 0 x) eqn:E; [reflexivity |].
  apply Qle_bool_iff in H. congruence.
Qed.

Lemma Qfloor_nonneg (x : Q) : 0 <= x -> (0 <= Qfloor x)%Z.
Proof.
  intros H. exact (Qfloor_resp_le 0 x H).
Qed.

Lemma Qfloor_le_Z (x : Q) (n : Z) : x <= inject_Z n -> (Qfloor x <= n)%Z.
Proof.
  intros H. rewrite <- (Qfloor_Z n). now apply Qfloor_resp_le.
Qed.

(** [max(0, min(hi, x))] is never negative and never above [max(0, hi)]. *)
Lemma clamp_nonneg (hi x : Q) : 0 <= Qmax 0 (Qmin hi x).
Proof. apply Q.le_max_l. Qed.

Lemma clamp_le (hi x : Q) : 0 <= hi -> Qmax 0 (Qmin hi x) <= hi.
Proof.
  intros H. apply Q.max_lub; [exact H | apply Q.le_min_l].
Qed.

Lemma int_clamp_bounds (hi : Z) (x : Q) :
  (0 <= Py.int (Qmax 0 (Qmin (inject_Z hi) x)))%Z /\
  ((0 <= hi)%Z -> (Py.int (Qmax 0 (Qmin (inject_Z hi) x)) <= hi)%Z) /\
  ((hi <= 0)%Z -> Py.int (Qmax 0 (Qmin (inject_Z hi) x)) = 0%Z).
Proof.
  rewrite int_nonneg by apply clamp_nonneg.
  split; [apply Qfloor_nonneg, clamp_nonneg |].
  split.
  - intros H. apply Qfloor_le_Z, clamp_le.
    change 0 with (inject_Z 0). now rewrite <- Zle_Qle.
  - intros H.
    assert (Hz : Qmax 0 (Qmin (inject_Z hi) x) == 0).
    { apply Q.max_l. eapply Qle_trans; [apply Q.le_min_l |].
      change 0 with (inject_Z 0). now rewrite <- Zle_Qle. }
    rewrite Hz. reflexivity.
Qed.

End Truncation.

(** ** What redrawing and recomputing the mean leave alone *)

Section Redraw.

Lemma calculate_mean_fields (st : WaveformAnalyzer) :
  let st' := _calculate_mean st in
  start_idx st' = start_idx st /\ end_idx st' = end_idx st /\
  col_data st' = col_data st /\ is_dragging st' = is_dragging st /\
  drag_type st' = drag_type st /\ drag_offset st' = drag_offset st /\
  clipboard st' = clipboard st /\ clip_log st' = clip_log st.
Proof.
  unfold _calculate_mean. destruct (col_data st) as [d |] eqn:E; simpl.
  - destruct (Z.max 0 (start_idx st) >=?
              Z.min (Z.of_nat (List.length d) - 1) (end_idx st));
      simpl; rewrite ?E; repeat split; reflexivity.
  - rewrite E. repeat split; reflexivity.
Qed.

Lemma draw_selection_rect_fields (st : WaveformAnalyzer) :
  let st' := _draw_selection_rect st in
  start_idx st' = start_idx st /\
  end_idx st' =
    (if start_idx st >=? end_idx st then start_idx st + 1 else end_idx st) /\
  col_data st' = col_data st /\ is_dragging st' = is_dragging st /\
  drag_type st' = drag_type st /\ drag_offset st' = drag_offset st /\
  mean_var st' = mean_var st /\
  clipboard st' = clipboard st /\ clip_log st' = clip_log st.
Proof.
  unfold _draw_selection_rect. simpl.
  destruct (start_idx st >=? end_idx st); simpl; repeat split; reflexivity.
Qed.

(** The tail of [load_column_data] and of [on_mouse_move]. *)
Lemma redraw_fields (st : WaveformAnalyzer) :
  let st' := _calculate_mean (_draw_selection_rect st) in
  start_idx st' = start_idx st /\
  end_idx st' =
    (if start_idx st >=? end_idx st then start_idx st + 1 else end_idx st) /\
  col_data st' = col_data st /\ is_dragging st' = is_dragging st /\
  drag_type st' = drag_type st /\ drag_offset st' = drag_offset st /\
  clipboard st' = clipboard st /\ clip_log st' = clip_log st.
Proof.
  cbv zeta.
  destruct (calculate_mean_fields (_draw_selection_rect st))
    as (H1 & H2 & H3 & H4 & H5 & H6 & H7 & H8).
  destruct (draw_selection_rect_fields st)
    as (G1 & G2 & G3 & G4 & G5 & G6 & _ & G7 & G8).
  cbv zeta in *.
  rewrite H1, H2, H3, H4, H5, H6, H7, H8.
  repeat split; assumption.
Qed.

Lemma len_data_col (st st' : WaveformAnalyzer) :
  col_data st' = col_data st -> len_data st' = len_data st.
Proof. unfold len_data. now intros ->. Qed.

End Redraw.


(** ** Binary64 rounding *)

Section Rounding.

Local Open Scope Q_scope.

Lemma pow2_pos (z : Z) : 0 < B64.pow2 z.
Proof. apply Qpower_0_lt. reflexivity. Qed.

Lemma pow2_add (a b : Z) : B64.pow2 (a + b) == B64.pow2 a * B64.pow2 b.
Proof. apply Qpower_plus. discriminate. Qed.

Lemma pow2_le (a b : Z) : (a <= b)%Z -> B64.pow2 a <= B64.pow2 b.
Proof. intros H. apply Qpower_le_compat_l; [exact H | discriminate]. Qed.

Lemma pow2_lt (a b : Z) : (a < b)%Z -> B64.pow2 a < B64.pow2 b.
Proof. intros H. apply Qpower_lt_compat_l; [exact H | reflexivity]. Qed.

Lemma pow2_lt_inv (a b : Z) : B64.pow2 a < B64.pow2 b -> (a < b)%Z.
Proof. intros H. apply (Qpower_lt_compat_l_inv 2); [exact H | reflexivity]. Qed.

Lemma pow2_Z (z : Z) : (0 <= z)%Z -> B64.pow2 z == inject_Z (2 ^ z).
Proof. intros H. symmetry. apply (Zpower_Qpower 2 z H). Qed.

(** [q / 2^e] is [q * 2^(-e)]. *)
Lemma div_pow2 (q : Q) (e : Z) : q / B64.pow2 e == q * B64.pow2 (- e).
Proof.
  unfold Qdiv. apply Qmult_comp; [reflexivity |].
  unfold B64.pow2. now rewrite Qpower_opp.
Qed.

Lemma Qabs_frac (q : Q) :
  Qabs q * inject_Z (Z.pos (Qden q)) == inject_Z (Z.abs (Qnum q)).
Proof.
  destruct q as [n d]. unfold Qabs, Qeq, Qmult, inject_Z. simpl. lia.
Qed.

Lemma ilog2_spec (q : Q) :
  ~ q == 0 ->
  B64.pow2 (B64.ilog2 q) <= Qabs q /\ Qabs q < B64.pow2 (B64.ilog2 q + 1).
Proof.
  intros Hq.
  set (n := Z.abs (Qnum q)). set (d := Z.pos (Qden q)).
  assert (Hn : (0 < n)%Z).
  { subst n. destruct q as [[| p | p] dd]; simpl; try lia.
    exfalso. apply Hq. reflexivity. }
  assert (Hd : (0 < d)%Z) by (subst d; lia).
  destruct (Z.log2_spec n Hn) as (Hn1 & Hn2).
  destruct (Z.log2_spec d Hd) as (Hd1 & Hd2).
  pose proof (Z.log2_nonneg n) as Ha. pose proof (Z.log2_nonneg d) as Hb.
  set (a := Z.log2 n) in *. set (b := Z.log2 d) in *.
  pose proof (Qabs_frac q) as Hf. fold n d in Hf.
  assert (Hdq : 0 < inject_Z d).
  { change 0 with (inject_Z 0). now rewrite <- Zlt_Qlt. }
  assert (Hup : Qabs q < B64.pow2 (a - b + 1)).
  { apply (Qmult_lt_r _ _ (inject_Z d) Hdq). rewrite Hf.
    apply Qlt_le_trans with (inject_Z (2 ^ Z.succ a)).
    - now rewrite <- Zlt_Qlt.
    - rewrite <- pow2_Z by lia.
      replace (Z.succ a) with ((a - b + 1) + b)%Z by lia.
      rewrite pow2_add. apply Qmult_le_l; [apply pow2_pos |].
      rewrite pow2_Z by lia. now rewrite <- Zle_Qle. }
  assert (Hlo : B64.pow2 (a - b - 1) < Qabs q).
  { apply (Qmult_lt_r _ _ (inject_Z d) Hdq). rewrite Hf.
    apply Qlt_le_trans with (inject_Z (2 ^ a)).
    - rewrite <- pow2_Z by lia.
      replace a with ((a - b - 1) + Z.succ b)%Z at 2 by lia.
      rewrite pow2_add. apply Qmult_lt_l; [apply pow2_pos |].
      rewrite pow2_Z by lia. now rewrite <- Zlt_Qlt.
    - now rewrite <- Zle_Qle. }
  unfold B64.ilog2. fold n d a b.
  destruct (Qle_bool (B64.pow2 (a - b)) (Qabs q)) eqn:E.
  - apply Qle_bool_iff in E. split; [exact E | exact Hup].
  - split; [now apply Qlt_le_weak |].
    replace (a - b - 1 + 1)%Z with (a - b)%Z by lia.
    apply Qnot_le_lt. intros H. apply Qle_bool_iff in H. congruence.
Qed.

Lemma ilog2_unique (q : Q) (E : Z) :
  B64.pow2 E <= Qabs q -> Qabs q < B64.pow2 (E + 1) -> B64.ilog2 q = E.
Proof.
  intros H1 H2.
  assert (Hq : ~ q == 0).
  { intros H0. rewrite H0 in H1. change (Qabs 0) with 0 in H1.
    pose proof (pow2_pos E). lra. }
  destruct (ilog2_spec q Hq) as (G1 & G2).
  assert ((B64.ilog2 q < E + 1)%Z)
    by (apply pow2_lt_inv; eapply Qle_lt_trans; eassumption).
  assert ((E < B64.ilog2 q + 1)%Z)
    by (apply pow2_lt_inv; eapply Qle_lt_trans; eassumption).
  lia.
Qed.

(** *** Rounding to an integer *)

Lemma rhe_cases (x : Q) :
  Text.round_half_even x = Qfloor x \/
  (Text.round_half_even x = (Qfloor x + 1)%Z /\ inject_Z (Qfloor x) < x).
Proof.
  destruct x as [n d]. unfold Text.round_half_even, Qfloor. cbn [Qnum Qden].
  assert (Hr : (0 < n mod Z.pos d)%Z -> inject_Z (n / Z.pos d) < n # d).
  { intros Hpos. unfold Qlt, inject_Z. cbn [Qnum Qden].
    pose proof (Z.div_mod n (Z.pos d) ltac:(lia)). nia. }
  pose proof (Z.mod_pos_bound n (Z.pos d) ltac:(lia)) as Hb.
  destruct (Z.compare_spec (2 * (n mod Z.pos d))%Z (Z.pos d)).
  - destruct (Z.even (n / Z.pos d)); [now left | right].
    split; [reflexivity | apply Hr; lia].
  - now left.
  - right. split; [reflexivity | apply Hr; lia].
Qed.

Lemma rhe_le_int (x : Q) (K : Z) :
  x <= inject_Z K -> (Text.round_half_even x <= K)%Z.
Proof.
  intros H. pose proof (Qfloor_le x) as Hf.
  assert (Hfk : (Qfloor x <= K)%Z).
  { rewrite <- (Qfloor_Z K). now apply Qfloor_resp_le. }
  destruct (rhe_cases x) as [-> | (-> & Hlt)]; [exact Hfk |].
  assert ((Qfloor x < K)%Z); [| lia].
  rewrite Zlt_Qlt. eapply Qlt_le_trans; eassumption.
Qed.

Lemma rhe_ge_int (x : Q) (K : Z) :
  inject_Z K <= x -> (K <= Text.round_half_even x)%Z.
Proof.
  intros H.
  assert (Hfk : (K <= Qfloor x)%Z).
  { rewrite <- (Qfloor_Z K). now apply Qfloor_resp_le. }
  destruct (rhe_cases x) as [-> | (-> & _)]; lia.
Qed.

Lemma rhe_int (x : Q) (K : Z) :
  x == inject_Z K -> Text.round_half_even x = K.
Proof.
  intros H.
  assert ((Text.round_half_even x <= K)%Z) by (apply rhe_le_int; lra).
  assert ((K <= Text.round_half_even x)%Z) by (apply rhe_ge_int; lra).
  lia.
Qed.

(** *** Rounding to binary64 *)

Lemma rnd_zero (q : Q) : q == 0 -> B64.rnd q = 0.
Proof.
  intros H. unfold B64.rnd. apply Qeq_bool_iff in H. now rewrite H.
Qed.

Lemma rnd_value (q : Q) :
  ~ q == 0 ->
  B64.rnd q ==
  inject_Z (Text.round_half_even (q / B64.pow2 (B64.ilog2 q - 52))) *
  B64.pow2 (B64.ilog2 q - 52).
Proof.
  intros H. unfold B64.rnd.
  destruct (Qeq_bool q 0) eqn:E; [apply Qeq_bool_iff in E; contradiction |].
  apply Qred_correct.
Qed.

(** The scaled magnitude of a positive number lies in [2^52, 2^53). *)
Lemma scaled_bounds (q : Q) :
  0 < q ->
  inject_Z (2 ^ 52) <= q / B64.pow2 (B64.ilog2 q - 52) /\
  q / B64.pow2 (B64.ilog2 q - 52) < inject_Z (2 ^ 53).
Proof.
  intros Hq.
  destruct (ilog2_spec q) as (H1 & H2); [lra |].
  rewrite (Qabs_pos q) in H1, H2 by lra.
  set (E := B64.ilog2 q) in *.
  rewrite div_pow2.
  pose proof (pow2_pos (- (E - 52))) as Hu.
  rewrite <- !pow2_Z by lia.
  split.
  - replace 52%Z with (E + - (E - 52))%Z at 1 by lia. rewrite pow2_add.
    now apply Qmult_le_compat_r; [| apply Qlt_le_weak].
  - replace 53%Z with ((E + 1) + - (E - 52))%Z by lia. rewrite pow2_add.
    now apply Qmult_lt_compat_r.
Qed.

Lemma rnd_le_int (y : Q) (K : Z) :
  0 < y -> y <= inject_Z K -> (K <= 2 ^ 53)%Z -> B64.rnd y <= inject_Z K.
Proof.
  intros Hy HK Hb.
  rewrite rnd_value by lra.
  destruct (ilog2_spec y) as (H1 & H2); [lra |].
  rewrite (Qabs_pos y) in H1, H2 by lra.
  set (E := B64.ilog2 y) in *.
  pose proof (pow2_pos (E - 52)) as Hu.
  destruct (Z_le_gt_dec E 52) as [HE | HE].
  - (* the unit is at most one: [K] is a multiple of it *)
    assert (Hinv : B64.pow2 (E - 52) * inject_Z (2 ^ (52 - E)) == 1).
    { rewrite <- pow2_Z by lia. rewrite <- pow2_add.
      replace (E - 52 + (52 - E))%Z with 0%Z by lia. reflexivity. }
    assert (Hs : y / B64.pow2 (E - 52) <= inject_Z (K * 2 ^ (52 - E))).
    { rewrite div_pow2. replace (- (E - 52))%Z with (52 - E)%Z by lia.
      rewrite inject_Z_mult, pow2_Z by lia.
      apply Qmult_le_compat_r; [exact HK |].
      change 0 with (inject_Z 0). rewrite <- Zle_Qle. lia. }
    apply rhe_le_int in Hs. rewrite Zle_Qle in Hs.
    rewrite inject_Z_mult in Hs.
    apply (Qmult_le_compat_r _ _ (B64.pow2 (E - 52))) in Hs; [| lra].
    eapply Qle_trans; [exact Hs |].
    rewrite <- Qmult_assoc, (Qmult_comm (inject_Z (2 ^ (52 - E)))), Hinv.
    lra.
  - (* then [y] is [2^53] itself *)
    assert (Hp : B64.pow2 53 <= B64.pow2 E) by (apply pow2_le; lia).
    assert (HK53 : inject_Z K <= B64.pow2 53).
    { rewrite pow2_Z by lia. now rewrite <- Zle_Qle. }
    assert (Hy53 : y == B64.pow2 53) by lra.
    assert (HE53 : E = 53%Z).
    { assert ((E < 54)%Z); [| lia].
      apply pow2_lt_inv. eapply Qle_lt_trans; [exact H1 |].
      rewrite Hy53. apply pow2_lt. lia. }
    rewrite HE53 in *.
    assert (Hs : y / B64.pow2 (53 - 52) == inject_Z (2 ^ 52)).
    { rewrite Hy53. reflexivity. }
    rewrite (rhe_int _ _ Hs).
    apply Qle_trans with (B64.pow2 53); [| lra].
    apply Qle_lteq. right. reflexivity.
Qed.

Lemma rnd_ge_int (y : Q) (K : Z) :
  0 < y -> inject_Z K <= y -> (K <= 2 ^ 53)%Z -> inject_Z K <= B64.rnd y.
Proof.
  intros Hy HK Hb.
  rewrite rnd_value by lra.
  destruct (ilog2_spec y) as (H1 & H2); [lra |].
  rewrite (Qabs_pos y) in H1, H2 by lra.
  destruct (scaled_bounds y Hy) as (Hs1 & _).
  set (E := B64.ilog2 y) in *.
  pose proof (pow2_pos (E - 52)) as Hu.
  destruct (Z_le_gt_dec E 52) as [HE | HE].
  - assert (Hinv : inject_Z (2 ^ (52 - E)) * B64.pow2 (E - 52) == 1).
    { rewrite <- pow2_Z by lia. rewrite <- pow2_add.
      replace (52 - E + (E - 52))%Z with 0%Z by lia. reflexivity. }
    assert (Hs : inject_Z (K * 2 ^ (52 - E)) <= y / B64.pow2 (E - 52)).
    { rewrite div_pow2. replace (- (E - 52))%Z with (52 - E)%Z by lia.
      rewrite inject_Z_mult, pow2_Z by lia.
      apply Qmult_le_compat_r; [exact HK |].
      change 0 with (inject_Z 0). rewrite <- Zle_Qle. lia. }
    apply rhe_ge_int in Hs. rewrite Zle_Qle in Hs.
    rewrite inject_Z_mult in Hs.
    apply (Qmult_le_compat_r _ _ (B64.pow2 (E - 52))) in Hs; [| lra].
    eapply Qle_trans; [| exact Hs].
    rewrite <- Qmult_assoc, Hinv. lra.
  - apply rhe_ge_int in Hs1. rewrite Zle_Qle in Hs1.
    apply (Qmult_le_compat_r _ _ (B64.pow2 (E - 52))) in Hs1; [| lra].
    eapply Qle_trans; [| exact Hs1].
    rewrite <- pow2_Z by lia. rewrite <- pow2_add.
    replace (52 + (E - 52))%Z with E by lia.
    apply Qle_trans with (B64.pow2 53); [| apply pow2_le; lia].
    rewrite pow2_Z by lia. now rewrite <- Zle_Qle.
Qed.

(** A value [m * 2^e] with [0 < m <= 2^53] is a binary64 value: rounding
    leaves it alone. *)
Lemma rnd_fixed (q : Q) (m e : Z) :
  (0 < m)%Z -> (m <= 2 ^ 53)%Z ->
  q == inject_Z m * B64.pow2 e -> B64.rnd q == q.
Proof.
  intros Hm0 Hm Hq.
  pose proof (pow2_pos e) as Hpe.
  assert (Hm0q : 0 < inject_Z m).
  { change 0 with (inject_Z 0). now rewrite <- Zlt_Qlt. }
  assert (Hpos : 0 < q).
  { rewrite Hq. apply Qmult_lt_0_compat; assumption. }
  rewrite rnd_value by lra.
  destruct (ilog2_spec q) as (H1 & H2); [lra |].
  rewrite (Qabs_pos q) in H1, H2 by lra.
  set (E := B64.ilog2 q) in *.
  assert (HEe : (E <= 53 + e)%Z).
  { assert ((E < 53 + e + 1)%Z); [| lia].
    apply pow2_lt_inv. eapply Qle_lt_trans; [exact H1 |].
    rewrite Hq.
    apply Qle_lt_trans with (B64.pow2 (53 + e)); [| apply pow2_lt; lia].
    rewrite pow2_add. apply Qmult_le_compat_r; [| lra].
    rewrite pow2_Z by lia. now rewrite <- Zle_Qle. }
  destruct (Z_le_gt_dec (E - 52) e) as [HE | HE].
  - assert (Hs : q / B64.pow2 (E - 52) ==
                 inject_Z (m * 2 ^ (e - (E - 52)))).
    { rewrite div_pow2, Hq, inject_Z_mult, <- pow2_Z by lia.
      rewrite <- Qmult_assoc, <- pow2_add.
      replace (e + - (E - 52))%Z with (e - (E - 52))%Z by lia. reflexivity. }
    rewrite (rhe_int _ _ Hs), inject_Z_mult, <- pow2_Z by lia.
    rewrite <- Qmult_assoc, <- pow2_add.
    replace (e - (E - 52) + (E - 52))%Z with e by lia.
    symmetry. exact Hq.
  - assert (HE' : E = (53 + e)%Z) by lia.
    assert (Hm' : m = (2 ^ 53)%Z).
    { assert ((2 ^ 53 <= m)%Z); [| lia].
      rewrite Zle_Qle.
      apply (Qmult_le_r _ _ (B64.pow2 e) Hpe).
      rewrite <- Hq. eapply Qle_trans; [| exact H1].
      rewrite HE', pow2_add, (pow2_Z 53) by lia. lra. }
    assert (Hq' : q == B64.pow2 E).
    { rewrite Hq, Hm', HE', pow2_add, (pow2_Z 53) by lia. reflexivity. }
    assert (Hs : q / B64.pow2 (E - 52) == inject_Z (2 ^ 52)).
    { rewrite div_pow2, Hq', <- pow2_add, <- pow2_Z by lia.
      replace (E + - (E - 52))%Z with 52%Z by lia. reflexivity. }
    rewrite (rhe_int _ _ Hs), <- pow2_Z by lia. rewrite <- pow2_add.
    replace (52 + (E - 52))%Z with E by lia.
    symmetry. exact Hq'.
Qed.

Lemma rnd_int (z : Z) :
  (0 <= z)%Z -> (z <= 2 ^ 53)%Z -> B64.rnd (inject_Z z) == inject_Z z.
Proof.
  intros H0 H1.
  destruct (Z.eq_dec z 0) as [-> | Hz]; [reflexivity |].
  apply (rnd_fixed _ z 0); [lia | exact H1 |].
  change (B64.pow2 0) with 1. lra.
Qed.

(** The result of a rounding, when positive, is some [M * 2^e] with
    [2^52 <= M <= 2^53]. *)
Lemma rnd_rep (q : Q) :
  0 < B64.rnd q ->
  exists M e : Z,
    (2 ^ 52 <= M)%Z /\ (M <= 2 ^ 53)%Z /\
    B64.rnd q == inject_Z M * B64.pow2 e.
Proof.
  intros Hr.
  assert (Hq : 0 < q).
  { destruct (Qlt_le_dec 0 q) as [H | H]; [exact H | exfalso].
    destruct (Qeq_dec q 0) as [H0 | H0].
    - rewrite (rnd_zero q H0) in Hr. lra.
    - rewrite (rnd_value q H0) in Hr.
      pose proof (pow2_pos (B64.ilog2 q - 52)) as Hu.
      assert (Hs : q / B64.pow2 (B64.ilog2 q - 52) <= inject_Z 0).
      { rewrite div_pow2. pose proof (pow2_pos (- (B64.ilog2 q - 52))).
        change (inject_Z 0) with 0.
        rewrite <- (Qmult_0_l (B64.pow2 (- (B64.ilog2 q - 52)))).
        apply Qmult_le_compat_r; lra. }
      apply rhe_le_int in Hs. rewrite Zle_Qle in Hs.
      apply (Qmult_le_compat_r _ _ (B64.pow2 (B64.ilog2 q - 52))) in Hs;
        [| lra].
      change (inject_Z 0) with 0 in Hs. lra. }
  destruct (scaled_bounds q Hq) as (H1 & H2).
  exists (Text.round_half_even (q / B64.pow2 (B64.ilog2 q - 52))),
         (B64.ilog2 q - 52)%Z.
  split; [now apply rhe_ge_int |].
  split; [apply rhe_le_int; lra |].
  apply rnd_value. lra.
Qed.

(** Subtracting an integer from a double above it is exact. *)
Lemma rnd_sub_int (raw : Q) (s : Z) (q : Q) :
  (0 <= s)%Z ->
  inject_Z s <= B64.rnd raw ->
  B64.rnd raw <= inject_Z (2 ^ 53) ->
  q == B64.rnd raw - inject_Z s ->
  B64.rnd q == q.
Proof.
  intros Hs Hle Hb Hq.
  set (x0 := B64.rnd raw) in *.
  destruct (Qeq_dec q 0) as [H0 | H0].
  { rewrite (rnd_zero _ H0). now rewrite H0. }
  assert (Hs0 : 0 <= inject_Z s).
  { change 0 with (inject_Z 0). now rewrite <- Zle_Qle. }
  assert (Hy : 0 < q).
  { apply Qlt_leneq. split; [lra |]. intros E. apply H0. now symmetry. }
  destruct (rnd_rep raw) as (M & e & HM1 & HM2 & Hx); [fold x0; lra |].
  fold x0 in Hx.
  pose proof (pow2_pos e) as Hpe.
  destruct (Z_le_gt_dec e 0) as [He | He].
  - assert (Hinv : inject_Z (2 ^ (- e)) * B64.pow2 e == 1).
    { rewrite <- pow2_Z by lia. rewrite <- pow2_add.
      replace (- e + e)%Z with 0%Z by lia. reflexivity. }
    assert (Hrep : q == inject_Z (M - s * 2 ^ (- e)) * B64.pow2 e).
    { unfold Zminus. rewrite inject_Z_plus, inject_Z_opp, inject_Z_mult.
      rewrite Hq, Hx.
      setoid_replace (inject_Z s) with
        (inject_Z s * (inject_Z (2 ^ (- e)) * B64.pow2 e)) at 1
        by (rewrite Hinv; ring).
      ring. }
    apply (rnd_fixed _ (M - s * 2 ^ (- e)) e); [| | exact Hrep].
    + rewrite Zlt_Qlt. change (inject_Z 0) with 0.
      apply (Qmult_lt_r _ _ (B64.pow2 e) Hpe). rewrite <- Hrep. lra.
    + assert ((0 <= s * 2 ^ (- e))%Z) by (apply Z.mul_nonneg_nonneg; lia).
      lia.
  - assert (HX : x0 == inject_Z (M * 2 ^ e)).
    { rewrite Hx, inject_Z_mult, (pow2_Z e) by lia. reflexivity. }
    assert (Hrep : q == inject_Z (M * 2 ^ e - s) * B64.pow2 0).
    { unfold Zminus. rewrite inject_Z_plus, inject_Z_opp, Hq, HX.
      change (B64.pow2 0) with 1. ring. }
    change (B64.pow2 0) with 1 in Hrep.
    apply (rnd_fixed _ (M * 2 ^ e - s) 0).
    + rewrite Zlt_Qlt. change (inject_Z 0) with 0. lra.
    + rewrite Zle_Qle. lra.
    + change (B64.pow2 0) with 1. exact Hrep.
Qed.

(** Below zero as well, rounding does not cross an integer. *)
Lemma rnd_le_int_neg (y : Q) (K : Z) :
  y < 0 -> y <= inject_Z K -> (- 2 ^ 53 <= K)%Z -> B64.rnd y <= inject_Z K.
Proof.
  intros Hy HK Hb.
  rewrite rnd_value by lra.
  destruct (ilog2_spec y) as (H1 & _); [lra |].
  rewrite (Qabs_neg y) in H1 by lra.
  set (E := B64.ilog2 y) in *.
  pose proof (pow2_pos (E - 52)) as Hu.
  destruct (Z_le_gt_dec E 52) as [HE | HE].
  - assert (Hinv : B64.pow2 (E - 52) * inject_Z (2 ^ (52 - E)) == 1).
    { rewrite <- pow2_Z by lia. rewrite <- pow2_add.
      replace (E - 52 + (52 - E))%Z with 0%Z by lia. reflexivity. }
    assert (Hs : y / B64.pow2 (E - 52) <= inject_Z (K * 2 ^ (52 - E))).
    { rewrite div_pow2. replace (- (E - 52))%Z with (52 - E)%Z by lia.
      rewrite inject_Z_mult, pow2_Z by lia.
      apply Qmult_le_compat_r; [exact HK |].
      change 0 with (inject_Z 0). rewrite <- Zle_Qle. lia. }
    apply rhe_le_int in Hs. rewrite Zle_Qle in Hs.
    rewrite inject_Z_mult in Hs.
    apply (Qmult_le_compat_r _ _ (B64.pow2 (E - 52))) in Hs; [| lra].
    eapply Qle_trans; [exact Hs |].
    rewrite <- Qmult_assoc, (Qmult_comm (inject_Z (2 ^ (52 - E)))), Hinv.
    lra.
  - assert (Hs : y / B64.pow2 (E - 52) <= inject_Z (- 2 ^ 52)).
    { rewrite div_pow2. pose proof (pow2_pos (- (E - 52))) as Hv.
      rewrite inject_Z_opp, <- (pow2_Z 52) by lia.
      replace 52%Z with (E + - (E - 52))%Z at 2 by lia. rewrite pow2_add.
      setoid_replace (- (B64.pow2 E * B64.pow2 (- (E - 52))))
        with ((- B64.pow2 E) * B64.pow2 (- (E - 52))) by ring.
      apply Qmult_le_compat_r; lra. }
    apply rhe_le_int in Hs. rewrite Zle_Qle in Hs.
    apply (Qmult_le_compat_r _ _ (B64.pow2 (E - 52))) in Hs; [| lra].
    eapply Qle_trans; [exact Hs |].
    rewrite inject_Z_opp, <- (pow2_Z 52) by lia.
    setoid_replace (- B64.pow2 52 * B64.pow2 (E - 52))
      with (- (B64.pow2 52 * B64.pow2 (E - 52))) by ring.
    rewrite <- pow2_add. replace (52 + (E - 52))%Z with E by lia.
    assert (Hp : B64.pow2 53 <= B64.pow2 E) by (apply pow2_le; lia).
    assert (HK53 : - B64.pow2 53 <= inject_Z K).
    { rewrite (pow2_Z 53) by lia. rewrite <- inject_Z_opp, <- Zle_Qle.
      exact Hb. }
    lra.
Qed.

End Rounding.
(** ** The three drags *)

Section Drags.

Variable st : WaveformAnalyzer.
Variable ev : MouseEvent.

Lemma move_ignored :
  ~ move_live st ev -> on_mouse_move ev st = (st, Returned).
Proof.
  unfold move_live, on_mouse_move. intros H.
  destruct (col_data st); [| reflexivity].
  destruct (is_dragging st), (inaxes ev); simpl; try reflexivity.
  exfalso. apply H. repeat split; congruence.
Qed.

Lemma move_start_range :
  let new_x := Qmax 0%Q (Qmin (inject_Z (len_data st - 1)) (xdata ev)) in
  move_live st ev -> drag_type st = Some DragStart ->
  let st' := fst (on_mouse_move ev st) in
  let s := Z.min (Py.int new_x) (end_idx st - 1) in
  start_idx st' = s /\
  end_idx st' = (if s >=? end_idx st then s + 1 else end_idx st) /\
  col_data st' = col_data st.
Proof.
  intros new_x (Hd & Hg & Hi) Ht. unfold on_mouse_move.
  destruct (col_data st) eqn:E; [| congruence].
  rewrite Hg, Hi, Ht. cbn [negb orb fst]. rewrite int_clamp. cbn [Num.val].
  fold new_x.
  destruct (redraw_fields
              (set_start_idx (Z.min (Py.int new_x) (end_idx st - 1)) st))
    as (H1 & H2 & H3 & _).
  cbv zeta in *. cbn [start_idx end_idx col_data set_start_idx] in H1, H2, H3.
  rewrite H1, H2, H3. repeat split. exact E.
Qed.

Lemma move_end_range :
  let new_x := Qmax 0%Q (Qmin (inject_Z (len_data st - 1)) (xdata ev)) in
  move_live st ev -> drag_type st = Some DragEnd ->
  let st' := fst (on_mouse_move ev st) in
  let e := Z.max (Py.int new_x) (start_idx st + 1) in
  start_idx st' = start_idx st /\
  end_idx st' = (if start_idx st >=? e then start_idx st + 1 else e) /\
  col_data st' = col_data st.
Proof.
  intros new_x (Hd & Hg & Hi) Ht. unfold on_mouse_move.
  destruct (col_data st) eqn:E; [| congruence].
  rewrite Hg, Hi, Ht. cbn [negb orb fst]. rewrite int_clamp. cbn [Num.val].
  fold new_x.
  destruct (redraw_fields
              (set_end_idx (Z.max (Py.int new_x) (start_idx st + 1)) st))
    as (H1 & H2 & H3 & _).
  cbv zeta in *. cbn [start_idx end_idx col_data set_end_idx] in H1, H2, H3.
  rewrite H1, H2, H3. repeat split. exact E.
Qed.

Lemma move_whole_range (off : Q) :
  let new_x :=
    Num.max (Num.Int 0)
      (Num.min (Num.Int (len_data st - 1)) (Num.Float (xdata ev))) in
  move_live st ev -> drag_type st = Some DragMove -> drag_offset st = Some off ->
  let st' := fst (on_mouse_move ev st) in
  let width := end_idx st - start_idx st in
  let new_start :=
    Num.max (Num.Int 0)
      (Num.min (Num.Int (len_data st - width))
         (Num.sub new_x (Num.Float off))) in
  let s := Num.int new_start in
  let e := Num.int (Num.add new_start (Num.Int width)) in
  start_idx st' = s /\
  end_idx st' = (if s >=? e then s + 1 else e) /\
  col_data st' = col_data st.
Proof.
  intros new_x (Hd & Hg & Hi) Ht Ho. unfold on_mouse_move.
  destruct (col_data st) eqn:E; [| congruence].
  rewrite Hg, Hi, Ht, Ho. cbn [negb orb fst].
  match goal with
  | |- context [_calculate_mean (_draw_selection_rect ?s)] =>
      destruct (redraw_fields s) as (H1 & H2 & H3 & _)
  end.
  cbv zeta in *.
  cbn [start_idx end_idx col_data set_start_idx set_end_idx] in H1, H2, H3.
  rewrite H1, H2, H3. repeat split. exact E.
Qed.

End Drags.

(** ** Clamped numbers as indices *)

Lemma int_clamp_nonneg (hi : Z) (v : Num.num) :
  0 <= Num.int (Num.max (Num.Int 0) (Num.min (Num.Int hi) v)).
Proof.
  rewrite int_clamp. apply int_clamp_bounds.
Qed.

(** ** Loading a column *)

Section Load.

Variable st : WaveformAnalyzer.
Variable t : DataFrame.
Variable c : Column.
Hypothesis Hdf : df st = Some t.
Hypothesis Hname : col_var st <> ""%string.
Hypothesis Hcol : lookup_column (col_var st) t = Some c.

Lemma load_column_data_empty :
  let n := Z.of_nat (List.length (dropna c)) in
  n = 0 ->
  load_column_data st =
    (set_col_data (Some (dropna c)) st, Raised AttributeError).
Proof.
  intros n Hn. unfold load_column_data. rewrite Hdf.
  destruct (String.eqb_spec (col_var st) ""); [contradiction |].
  rewrite Hcol. unfold len_data. simpl. fold n. rewrite Hn. reflexivity.
Qed.

Lemma load_column_data_loaded :
  let n := Z.of_nat (List.length (dropna c)) in
  1 <= n ->
  let st' := fst (load_column_data st) in
  snd (load_column_data st) = Returned /\
  col_data st' = Some (dropna c) /\
  start_idx st' = 0 /\
  end_idx st' = Z.max 1 (Z.min 20000 (n - 1)).
Proof.
  intros n Hn. cbv zeta. unfold load_column_data. rewrite Hdf.
  destruct (String.eqb_spec (col_var st) ""); [contradiction |].
  rewrite Hcol.
  change (len_data (set_col_data (Some (dropna c)) st)) with n.
  destruct (Z.eqb_spec n 0); [lia |].
  match goal with
  | |- context [_calculate_mean (_draw_selection_rect ?s)] =>
      set (s3 := s); destruct (redraw_fields s3) as (H1 & H2 & H3 & _)
  end.
  cbv zeta in *. cbn [fst snd]. rewrite H1, H2, H3.
  subst s3. unfold len_data. simpl. fold n.
  repeat split.
  destruct (Z.geb_spec 0 (Z.min 20000 (n - 1))); lia.
Qed.

End Load.

(** ** Copying leaves the selection alone *)

Lemma copy_fields (fault : TkFault) (st : WaveformAnalyzer) :
  let st' := fst (copy_result_to_clipboard fault st) in
  start_idx st' = start_idx st /\ end_idx st' = end_idx st /\
  col_data st' = col_data st /\ mean_var st' = mean_var st.
Proof.
  cbv zeta. unfold copy_result_to_clipboard.
  destruct (Text.contains _ _); [cbn; auto |].
  destruct (nth_error _ _); [| cbn; auto].
  destruct fault; cbn; auto.
Qed.

(** ** Every callback keeps the range ordered *)

Lemma load_column_data_ordered (st : WaveformAnalyzer) :
  ordered st -> ordered (fst (load_column_data st)).
Proof.
  intros Ho.
  destruct (df st) as [t |] eqn:Edf.
  2:{ unfold load_column_data. now rewrite Edf. }
  destruct (String.eqb_spec (col_var st) "") as [Ee | Ene].
  { unfold load_column_data. rewrite Edf, Ee. exact Ho. }
  destruct (lookup_column (col_var st) t) as [c |] eqn:Ec.
  2:{ unfold load_column_data. rewrite Edf.
      destruct (String.eqb_spec (col_var st) ""); [contradiction |].
      now rewrite Ec. }
  destruct (Z.eq_dec (Z.of_nat (List.length (dropna c))) 0) as [Hz | Hnz].
  - rewrite (load_column_data_empty st t c Edf Ene Ec Hz). exact Ho.
  - destruct (load_column_data_loaded st t c Edf Ene Ec) as (_ & _ & Hs & He);
      [lia |].
    unfold ordered. rewrite Hs, He. lia.
Qed.

Lemma on_mouse_press_range (ev : MouseEvent) (st : WaveformAnalyzer) :
  let st' := on_mouse_press ev st in
  start_idx st' = start_idx st /\ end_idx st' = end_idx st /\
  col_data st' = col_data st.
Proof.
  unfold on_mouse_press.
  destruct (col_data st) eqn:E; [| now rewrite E].
  destruct (negb (inaxes ev)); [now rewrite E |].
  repeat match goal with
         | |- context [if ?b then _ else _] => destruct b
         end; simpl; rewrite ?E; repeat split; reflexivity.
Qed.

Lemma on_mouse_move_ordered (ev : MouseEvent) (st : WaveformAnalyzer) :
  ordered st -> ordered (fst (on_mouse_move ev st)).
Proof.
  unfold ordered. intros Ho.
  destruct (col_data st) as [d |] eqn:Ed.
  2:{ rewrite move_ignored; [exact Ho |]. intros (H & _). congruence. }
  destruct (is_dragging st) eqn:Eg.
  2:{ rewrite move_ignored; [exact Ho |]. intros (_ & H & _). congruence. }
  destruct (inaxes ev) eqn:Ei.
  2:{ rewrite move_ignored; [exact Ho |]. intros (_ & _ & H). congruence. }
  assert (Hlive : move_live st ev) by (repeat split; congruence).
  destruct (drag_type st) as [[| |] |] eqn:Et.
  - destruct (move_start_range st ev Hlive Et) as (Hs & He & _).
    cbv zeta in Hs, He. rewrite Hs, He.
    destruct (int_clamp_bounds (len_data st - 1) (xdata ev)) as (Hx & _).
    match goal with |- context [?a >=? ?b] => destruct (Z.geb_spec a b) end;
      lia.
  - destruct (move_end_range st ev Hlive Et) as (Hs & He & _).
    cbv zeta in Hs, He. rewrite Hs, He.
    match goal with |- context [?a >=? ?b] => destruct (Z.geb_spec a b) end;
      lia.
  - destruct (drag_offset st) as [off |] eqn:Eo.
    + destruct (move_whole_range st ev off Hlive Et Eo) as (Hs & He & _).
      cbv zeta in Hs, He. rewrite Hs, He.
      match goal with
      | |- context [Num.int (Num.max (Num.Int 0) (Num.min (Num.Int ?hi) ?v)) >=? _] =>
          pose proof (int_clamp_nonneg hi v) as Hq
      end.
      match goal with |- context [?a >=? ?b] => destruct (Z.geb_spec a b) end;
        lia.
    + unfold on_mouse_move. rewrite Ed, Eg, Ei, Et, Eo. exact Ho.
  - unfold on_mouse_move. rewrite Ed, Eg, Ei, Et. simpl.
    destruct (redraw_fields st) as (Hs & He & _).
    cbv zeta in Hs, He. rewrite Hs, He.
    match goal with |- context [?a >=? ?b] => destruct (Z.geb_spec a b) end;
      lia.
Qed.

Lemma step_ordered (e : Event) (st : WaveformAnalyzer) :
  ordered st -> ordered (step e st).
Proof.
  intros Ho. destruct e as [picked | name | ev | ev | ev | fault]; simpl.
  - destruct picked; exact Ho.
  - apply load_column_data_ordered. exact Ho.
  - destruct (on_mouse_press_range ev st) as (Hs & He & _).
    unfold ordered. cbv zeta in Hs, He. now rewrite Hs, He.
  - now apply on_mouse_move_ordered.
  - exact Ho.
  - destruct (copy_fields fault st) as (Hs & He & _).
    unfold ordered. cbv zeta in Hs, He. now rewrite Hs, He.
Qed.

Lemma run_ordered (es : list Event) (st : WaveformAnalyzer) :
  ordered st -> ordered (run es st).
Proof.
  revert st. induction es as [| e es IH]; intros st Ho; simpl.
  - exact Ho.
  - apply IH. now apply step_ordered.
Qed.

(** ** Edge drags keep the range inside the data *)

Lemma edge_move_invariant (ev : MouseEvent) (st : WaveformAnalyzer) :
  selection_invariant st ->
  drag_type st <> Some DragMove ->
  selection_invariant (fst (on_mouse_move ev st)).
Proof.
  unfold selection_invariant. intros (Ho & Hb) Hnm.
  destruct (col_data st) as [d |] eqn:Ed.
  2:{ rewrite move_ignored; [tauto |]. intros (H & _). congruence. }
  destruct (is_dragging st) eqn:Eg.
  2:{ rewrite move_ignored; [tauto |]. intros (_ & H & _). congruence. }
  destruct (inaxes ev) eqn:Ei.
  2:{ rewrite move_ignored; [tauto |]. intros (_ & _ & H). congruence. }
  assert (Hlive : move_live st ev) by (repeat split; congruence).
  destruct (int_clamp_bounds (len_data st - 1) (xdata ev)) as (Hx0 & Hx1 & _).
  destruct (drag_type st) as [[| |] |] eqn:Et; [| | congruence |].
  - destruct (move_start_range st ev Hlive Et) as (Hs & He & Hc).
    cbv zeta in Hs, He. rewrite Hs, He, (len_data_col _ _ Hc).
    match goal with |- context [?a >=? ?b] => destruct (Z.geb_spec a b) end;
      lia.
  - destruct (move_end_range st ev Hlive Et) as (Hs & He & Hc).
    cbv zeta in Hs, He. rewrite Hs, He, (len_data_col _ _ Hc).
    match goal with |- context [?a >=? ?b] => destruct (Z.geb_spec a b) end;
      lia.
  - unfold on_mouse_move. rewrite Ed, Eg, Ei, Et. simpl.
    destruct (redraw_fields st) as (Hs & He & Hc & _).
    cbv zeta in Hs, He, Hc. rewrite Hs, He, (len_data_col _ _ Hc).
    match goal with |- context [?a >=? ?b] => destruct (Z.geb_spec a b) end;
      lia.
Qed.

(** C1, as the code has it.  (1) After every callback of every session the
    range satisfies [0 <= start < end].  (2) Loading a column with at least
    two valid values establishes [0 <= start < end <= length - 1].
    (3) A pointer move that is not a whole-span drag (a start-edge drag, an
    end-edge drag, or an ignored move) keeps [0 <= start < end <= length - 1].
    The upper bound after a whole-span drag is not part of this statement. *)
Theorem selection_invariant_by_design :
  (forall es : list Event, ordered (run es init)) /\
  (forall (st : WaveformAnalyzer) (t : DataFrame) (c : Column),
      df st = Some t ->
      col_var st <> ""%string ->
      lookup_column (col_var st) t = Some c ->
      2 <= Z.of_nat (List.length (dropna c)) ->
      selection_invariant (fst (load_column_data st))) /\
  (forall (st : WaveformAnalyzer) (ev : MouseEvent),
      selection_invariant st ->
      drag_type st <> Some DragMove ->
      selection_invariant (fst (on_mouse_move ev st))).
Proof.
  split; [| split].
  - intros es. apply run_ordered. unfold ordered, init. simpl. lia.
  - intros st t c Hdf Hn Hc Hlen.
    destruct (load_column_data_loaded st t c Hdf Hn Hc) as (_ & Hd & Hs & He);
      [lia |].
    cbv zeta in Hd, Hs, He. unfold selection_invariant, len_data.
    rewrite Hs, He, Hd. lia.
  - intros st ev. apply edge_move_invariant.
Qed.

(** C5, as the code has it: the column is refused only when it has no valid
    value: the call then stops on the attribute [messagebox.warning], which
    does not exist, shows no box and leaves the range as it was; with one
    valid value the call ends with the range [(0, 1)]; with two or more it
    ends with [start = 0] and [end = min(20000, length - 1)]. *)
Theorem load_column_data_reset
  (st : WaveformAnalyzer) (t : DataFrame) (c : Column) :
  df st = Some t ->
  col_var st <> ""%string ->
  lookup_column (col_var st) t = Some c ->
  let n := Z.of_nat (List.length (dropna c)) in
  let st' := fst (load_column_data st) in
  let sig := snd (load_column_data st) in
  (n = 0 ->
     sig = Raised AttributeError /\
     start_idx st' = start_idx st /\ end_idx st' = end_idx st) /\
  (n = 1 -> sig = Returned /\ start_idx st' = 0 /\ end_idx st' = 1) /\
  (2 <= n ->
     sig = Returned /\ start_idx st' = 0 /\ end_idx st' = Z.min 20000 (n - 1)).
Proof.
  intros Hdf Hn Hc n st' sig. subst st' sig.
  split; [| split]; intros Hlen.
  - rewrite (load_column_data_empty st t c Hdf Hn Hc Hlen). repeat split.
  - destruct (load_column_data_loaded st t c Hdf Hn Hc) as (Hr & _ & Hs & He);
      [fold n; lia |].
    cbv zeta in Hs, He. fold n in He. rewrite Hr, Hs, He. repeat split. lia.
  - destruct (load_column_data_loaded st t c Hdf Hn Hc) as (Hr & _ & Hs & He);
      [fold n; lia |].
    cbv zeta in Hs, He. fold n in He. rewrite Hr, Hs, He. repeat split. lia.
Qed.

(** ** Press: hit-testing *)

Lemma interior_spec (s x e : Num.num) :
  Num.le s x && Num.le x e = true <->
  (Num.val s <= Num.val x /\ Num.val x <= Num.val e)%Q.
Proof.
  unfold Num.le, Py.leb. rewrite andb_true_iff, !Qle_bool_iff. reflexivity.
Qed.

Lemma within_tolerance_spec (x : Q) (idx : Z) :
  within_tolerance x idx = true <->
  (Qabs (B64.rnd (x - B64.rnd (inject_Z idx))) < inject_Z 1000)%Q.
Proof.
  unfold within_tolerance. rewrite lt_spec. reflexivity.
Qed.

(** The float test does not accept a press that is at a real distance of
    1000 or more. *)
Lemma tolerance_sound (x : Q) (idx : Z) :
  0 <= idx <= 2 ^ 53 ->
  within_tolerance x idx = true ->
  (Qabs (x - inject_Z idx) < inject_Z 1000)%Q.
Proof.
  intros Hidx Hin. apply within_tolerance_spec in Hin.
  assert (Hr : (B64.rnd (inject_Z idx) == inject_Z idx)%Q)
    by (apply rnd_int; lia).
  apply Qnot_le_lt. intros Hfar.
  apply (Qlt_not_le _ _ Hin). clear Hin.
  set (y := (x - B64.rnd (inject_Z idx))%Q).
  assert (Hy : (y == x - inject_Z idx)%Q) by (unfold y; now rewrite Hr).
  rewrite <- Hy in Hfar.
  destruct (Qlt_le_dec y 0) as [Hneg | Hpos].
  - rewrite (Qabs_neg y) in Hfar by now apply Qlt_le_weak.
    assert (Hle : (B64.rnd y <= inject_Z (- 1000))%Q).
    { apply rnd_le_int_neg; [exact Hneg | | lia].
      change (inject_Z (- 1000)) with (- inject_Z 1000)%Q. lra. }
    change (inject_Z (- 1000)) with (- inject_Z 1000)%Q in Hle.
    rewrite Qabs_neg by (change (inject_Z 1000) with 1000%Q in Hle; lra).
    lra.
  - rewrite (Qabs_pos y) in Hfar by exact Hpos.
    assert (Hy0 : (0 < y)%Q)
      by (change (inject_Z 1000) with 1000%Q in Hfar; lra).
    assert (Hge : (inject_Z 1000 <= B64.rnd y)%Q)
      by (apply rnd_ge_int; [exact Hy0 | exact Hfar | lia]).
    rewrite Qabs_pos by (change (inject_Z 1000) with 1000%Q in Hge; lra).
    exact Hge.
Qed.

(** C6, as the code has it.  With a column loaded and the pointer inside the
    axes, a press is classified with the tolerance 1000 in this order, the
    distance to an edge being measured as the program does
    ([abs(x - idx)] with the binary64 difference): within the tolerance of
    [start_idx] it grabs the start edge; else within the tolerance of
    [end_idx] it grabs the end edge; else with [start_idx <= x <= end_idx] it
    grabs the whole span and records the float [x - start_idx]; else nothing
    changes.  Within the tolerance of both edges, the start edge wins.  A
    computed distance below the tolerance means a real distance below it
    (for an index of at most [2^53]); not the other way round. *)
Theorem press_hit_test
  (st : WaveformAnalyzer) (ev : MouseEvent) (d : list f64) :
  col_data st = Some d ->
  inaxes ev = true ->
  let x := xdata ev in
  let s := start_idx st in
  let e := end_idx st in
  let st' := on_mouse_press ev st in
  (within_tolerance x s = true -> st' = set_drag true (Some DragStart) st) /\
  (within_tolerance x s = false -> within_tolerance x e = true ->
     st' = set_drag true (Some DragEnd) st) /\
  (within_tolerance x s = false -> within_tolerance x e = false ->
   (inject_Z s <= x /\ x <= inject_Z e)%Q ->
     st' = set_drag_offset (Some (B64.rnd (x - B64.rnd (inject_Z s)))%Q)
             (set_drag true (Some DragMove) st)) /\
  (within_tolerance x s = false -> within_tolerance x e = false ->
   ~ (inject_Z s <= x /\ x <= inject_Z e)%Q ->
     st' = st) /\
  (within_tolerance x s = true -> within_tolerance x e = true ->
     is_dragging st' = true /\ drag_type st' = Some DragStart) /\
  (forall idx : Z,
      within_tolerance x idx = true <->
      (Qabs (B64.rnd (x - B64.rnd (inject_Z idx))) < inject_Z 1000)%Q) /\
  (forall idx : Z,
      0 <= idx <= 2 ^ 53 ->
      within_tolerance x idx = true ->
      (Qabs (x - inject_Z idx) < inject_Z 1000)%Q).
Proof.
  intros Hd Hin x s e st'. subst st'.
  unfold on_mouse_press. rewrite Hd, Hin. cbn [negb].
  fold x s e. fold (within_tolerance x s) (within_tolerance x e).
  split; [| split; [| split; [| split; [| split; [| split]]]]].
  - intros H1. now rewrite H1.
  - intros H1 H2. now rewrite H1, H2.
  - intros H1 H2 H3. rewrite H1, H2.
    rewrite (proj2 (interior_spec (Num.Int s) (Num.Float x) (Num.Int e)) H3).
    reflexivity.
  - intros H1 H2 H3. rewrite H1, H2.
    destruct (Num.le (Num.Int s) (Num.Float x) && Num.le (Num.Float x) (Num.Int e))
      eqn:E; [| reflexivity].
    apply interior_spec in E. contradiction.
  - intros H1 _. rewrite H1. split; reflexivity.
  - intros idx. apply within_tolerance_spec.
  - intros idx Hidx Hin'. now apply tolerance_sound.
Qed.

(** ** Release, and moves outside the axes *)

(** C7, as the code has it.  A release in any state sets [is_dragging] to
    [False] and [drag_type] to [None] and changes nothing else: an offset
    recorded by an earlier press stays.  A release while no drag is active
    changes nothing.  A move with the pointer outside the axes is ignored,
    so a drag in progress stays active. *)
Theorem release_and_leave (st : WaveformAnalyzer) (ev : MouseEvent) :
  (on_mouse_release ev st = set_drag false None st /\
   is_dragging (on_mouse_release ev st) = false /\
   drag_type (on_mouse_release ev st) = None /\
   drag_offset (on_mouse_release ev st) = drag_offset st) /\
  (is_dragging st = false -> drag_type st = None ->
     on_mouse_release ev st = st) /\
  (inaxes ev = false -> on_mouse_move ev st = (st, Returned)).
Proof.
  split; [| split].
  - repeat split.
  - intros Hg Ht. destruct st; simpl in *. subst. reflexivity.
  - intros Hin. apply move_ignored. intros (_ & _ & H). congruence.
Qed.

(** ** Slices and the mean *)

Section Slices.

Variable A : Type.
Variable dflt : A.

Lemma skipn_cons_nth (l : list A) (a : nat) :
  (a < List.length l)%nat -> skipn a l = nth a l dflt :: skipn (S a) l.
Proof.
  revert a. induction l as [| x l IH]; intros a Ha; simpl in Ha.
  - lia.
  - destruct a as [| a]; [reflexivity |].
    simpl. rewrite (IH a) by lia. reflexivity.
Qed.

Lemma firstn_skipn_nth (l : list A) (k a : nat) :
  (a + k <= List.length l)%nat ->
  firstn k (skipn a l) = map (fun i => nth i l dflt) (seq a k).
Proof.
  revert a. induction k as [| k IH]; intros a Ha; [reflexivity |].
  rewrite skipn_cons_nth by lia. cbn [firstn seq map].
  f_equal. apply IH. lia.
Qed.

Lemma slice_in_bounds (l : list A) (a b : Z) :
  0 <= a -> a <= b -> b <= Z.of_nat (List.length l) ->
  Py.slice l a b = firstn (Z.to_nat (b - a)) (skipn (Z.to_nat a) l).
Proof.
  intros Ha Hab Hb. unfold Py.slice, Py.slice_index.
  destruct (Z.ltb_spec a 0); [lia |].
  destruct (Z.ltb_spec b 0); [lia |].
  rewrite !Z.min_l by lia. reflexivity.
Qed.

End Slices.

Lemma slice_is_data_range (d : list f64) (a b : Z) :
  0 <= a -> a <= b -> b <= Z.of_nat (List.length d) - 1 ->
  Py.slice d a (b + 1) = data_range d a b /\
  Z.of_nat (List.length (Py.slice d a (b + 1))) = b - a + 1.
Proof.
  intros Ha Hab Hb.
  rewrite slice_in_bounds by lia.
  replace (b + 1 - a) with (b - a + 1) by lia.
  rewrite (firstn_skipn_nth f64 (Fin 0)) by lia.
  split; [reflexivity |].
  rewrite length_map, length_seq. lia.
Qed.

(** The two ways out of [_calculate_mean] once a column is loaded. *)
Lemma calculate_mean_cases (st : WaveformAnalyzer) (d : list f64) :
  col_data st = Some d ->
  let len := Z.of_nat (List.length d) in
  let start := Z.max 0 (start_idx st) in
  let end_ := Z.min (len - 1) (end_idx st) in
  (end_ <= start /\ _calculate_mean st = set_mean_var placeholder_text st) \/
  (start < end_ /\
   _calculate_mean st =
     set_mean_var
       (label_prefix ++ format_float (np_mean (Py.slice d start (end_ + 1))))
       st).
Proof.
  intros Hd len start end_.
  unfold _calculate_mean. rewrite Hd.
  change (Z.max 0 (start_idx st)) with start.
  change (Z.min (Z.of_nat (List.length d) - 1) (end_idx st)) with end_.
  destruct (Z.geb_spec start end_) as [Hge | Hlt]; [left | right].
  - split; [lia | reflexivity].
  - split; [lia | reflexivity].
Qed.


(** C10. [_calculate_mean] is total: without a column it returns at once;
    with one, for every [start_idx] and [end_idx], it clamps them to
    [start = max(0, start_idx)] and [end = min(length - 1, end_idx)] and
    either displays the placeholder ([end <= start]) or takes the slice
    [data[start : end + 1]], which then lies inside the data
    ([0 <= start < end <= length - 1]), reads only valid indices and has
    [end - start + 1 >= 2] elements; its mean is displayed. *)
Theorem calculate_mean_total (st : WaveformAnalyzer) :
  (col_data st = None -> _calculate_mean st = st) /\
  (forall d : list f64,
      col_data st = Some d ->
      let len := Z.of_nat (List.length d) in
      let start := Z.max 0 (start_idx st) in
      let end_ := Z.min (len - 1) (end_idx st) in
      (end_ <= start /\
       _calculate_mean st = set_mean_var placeholder_text st) \/
      (0 <= start /\ start < end_ /\ end_ <= len - 1 /\
       Py.slice d start (end_ + 1) = data_range d start end_ /\
       Z.of_nat (List.length (Py.slice d start (end_ + 1))) = end_ - start + 1 /\
       (forall i : nat,
           In i (seq (Z.to_nat start) (Z.to_nat (end_ - start + 1))) ->
           (i < List.length d)%nat) /\
       _calculate_mean st =
         set_mean_var
           (label_prefix ++
            format_float (np_mean (Py.slice d start (end_ + 1)))) st)).
Proof.
  split.
  - intros Hn. unfold _calculate_mean. now rewrite Hn.
  - intros d Hd len start end_.
    pose proof (calculate_mean_cases st d Hd) as Hc.
    pose proof (slice_is_data_range d start end_) as Hsl.
    cbv zeta in Hc. subst len start end_.
    destruct Hc as [H | (Hlt & Heq)]; [left; exact H | right].
    destruct Hsl as (Hsl & Hlen); [lia | lia | lia |].
    split; [lia |].
    split; [exact Hlt |].
    split; [lia |].
    split; [exact Hsl |].
    split; [exact Hlen |].
    split; [| exact Heq].
    intros i Hi. apply in_seq in Hi. lia.
Qed.

(** ** What the formatted mean looks like *)

Section Printed.

Local Open Scope string_scope.

Lemma all_chars_app (p : ascii -> bool) (s t : string) :
  Text.all_chars p (s ++ t) = Text.all_chars p s && Text.all_chars p t.
Proof.
  induction s as [| c s IH]; simpl; [reflexivity |].
  rewrite IH. apply andb_assoc.
Qed.

Lemma all_chars_weaken (p q : ascii -> bool) (s : string) :
  (forall c, p c = true -> q c = true) ->
  Text.all_chars p s = true -> Text.all_chars q s = true.
Proof.
  intros Hpq. induction s as [| c s IH]; simpl; [reflexivity |].
  rewrite !andb_true_iff. intros (Hc & Hs). split; auto.
Qed.

Lemma uint_digits (u : Decimal.uint) :
  Text.all_chars Text.digit_ascii (NilEmpty.string_of_uint u) = true.
Proof.
  induction u; simpl; try reflexivity; exact IHu.
Qed.

Lemma string_of_nonneg_digits (z : Z) :
  Text.all_chars Text.digit_ascii (Text.string_of_nonneg z) = true /\
  exists c s, Text.string_of_nonneg z = String c s.
Proof.
  unfold Text.string_of_nonneg, NilZero.string_of_uint.
  destruct (N.to_uint (Z.to_N z)) as [| u | u | u | u | u | u | u | u | u | u];
    (split; [| eexists; eexists; reflexivity]);
    first [reflexivity | apply uint_digits].
Qed.

Lemma digit_char_digit (d : Z) :
  0 <= d < 10 -> Text.digit_ascii (Text.digit_char d) = true.
Proof.
  intros H.
  assert (Hd : d = 0 \/ d = 1 \/ d = 2 \/ d = 3 \/ d = 4 \/
               d = 5 \/ d = 6 \/ d = 7 \/ d = 8 \/ d = 9) by lia.
  repeat (destruct Hd as [-> | Hd]; [reflexivity |]).
  subst d. reflexivity.
Qed.

Lemma frac4_digits (f : Z) :
  Text.all_chars Text.digit_ascii (Text.frac4 f) = true.
Proof.
  unfold Text.frac4. cbn [Text.all_chars].
  rewrite !digit_char_digit by (apply Z.mod_pos_bound; lia).
  reflexivity.
Qed.

Lemma digit_is_numeric (c : ascii) :
  Text.digit_ascii c = true -> Text.numeric_char c = true.
Proof.
  unfold Text.numeric_char. now intros ->.
Qed.

Lemma format_4f_numeric (q : Q) :
  Text.all_chars Text.numeric_char (Text.format_4f q) = true.
Proof.
  unfold Text.format_4f.
  rewrite !all_chars_app.
  rewrite (all_chars_weaken _ _ _ digit_is_numeric
             (proj1 (string_of_nonneg_digits _))).
  rewrite (all_chars_weaken _ _ _ digit_is_numeric (frac4_digits _)).
  destruct (Qle_bool 0 q); reflexivity.
Qed.

Lemma prefix_dash_digit (c : ascii) (s : string) :
  Text.digit_ascii c = true -> prefix "-" (String c s) = false.
Proof.
  intros Hc. cbn [prefix].
  destruct (ascii_dec "-" c) as [<- |]; [| reflexivity].
  discriminate Hc.
Qed.

Lemma format_4f_no_double_dash (q : Q) :
  prefix "--" (Text.format_4f q) = false.
Proof.
  unfold Text.format_4f.
  destruct (string_of_nonneg_digits
              (Z.abs (Text.round_half_even (q * inject_Z 10000)) / 10000))
    as (Hd & c & s & E).
  rewrite E in *. cbn [Text.all_chars] in Hd.
  apply andb_true_iff in Hd as (Hc & _).
  destruct (Qle_bool 0 q); cbn [append prefix].
  - destruct (ascii_dec "-" c) as [<- |]; [discriminate Hc | reflexivity].
  - destruct (ascii_dec "-" "-") as [_ | Hne]; [| reflexivity].
    destruct (ascii_dec "-" c) as [<- |]; [discriminate Hc | reflexivity].
Qed.

(** A separator whose first byte does not occur in [s] is not found. *)
Lemma index_absent (p : ascii -> bool) (c0 : ascii) (sep' s : string) :
  p c0 = false -> Text.all_chars p s = true ->
  forall n, index n (String c0 sep') s = None.
Proof.
  intros Hc0. induction s as [| c s IH]; intros Hs n; cbn [index prefix].
  - destruct n; reflexivity.
  - cbn [Text.all_chars] in Hs. apply andb_true_iff in Hs as (Hc & Hs).
    destruct n as [| n].
    + destruct (ascii_dec c0 c) as [-> |]; [congruence |].
      now rewrite IH.
    + now rewrite IH.
Qed.

Lemma numeric_not_space (c : ascii) :
  Text.numeric_char c = true -> Text.is_space c = false.
Proof.
  destruct c as [[|] [|] [|] [|] [|] [|] [|] [|]];
    vm_compute; intros H; congruence.
Qed.

Lemma lstrip_id (s : string) :
  Text.all_chars Text.numeric_char s = true -> Text.lstrip s = s.
Proof.
  destruct s as [| c s]; simpl; [reflexivity |].
  intros H. apply andb_true_iff in H as (Hc & _).
  now rewrite (numeric_not_space c Hc).
Qed.

Lemma rstrip_id (s : string) :
  Text.all_chars Text.numeric_char s = true -> Text.rstrip s = s.
Proof.
  induction s as [| c s IH]; simpl; [reflexivity |].
  intros H. apply andb_true_iff in H as (Hc & Hs).
  rewrite (IH Hs). rewrite (numeric_not_space c Hc).
  destruct s; reflexivity.
Qed.

Lemma strip_id (s : string) :
  Text.all_chars Text.numeric_char s = true -> Text.strip s = s.
Proof.
  intros H. unfold Text.strip. rewrite lstrip_id by exact H.
  now apply rstrip_id.
Qed.

Lemma substring_all (s : string) : substring 0 (String.length s) s = s.
Proof.
  induction s as [| c s IH]; simpl; [reflexivity | now rewrite IH].
Qed.

End Printed.

(** ** Taking the displayed text apart *)

Section Displayed.

Local Open Scope string_scope.

Lemma index_skip_char (sep : string) (c : ascii) (s : string) :
  prefix sep (String c s) = false ->
  index 0 sep (String c s) = option_map S (index 0 sep s).
Proof.
  intros H. cbn [index]. rewrite H. destruct (index 0 sep s); reflexivity.
Qed.

Lemma numeric_not_separator : Text.numeric_char "239" = false.
Proof. reflexivity. Qed.

Lemma contains_placeholder_free (t : string) :
  Text.all_chars Text.numeric_char t = true ->
  prefix "--" t = false ->
  Text.contains "：--" (label_prefix ++ t) = false.
Proof.
  intros Hn Hp. unfold Text.contains, label_prefix.
  cbn [append].
  do 21 (rewrite index_skip_char by reflexivity).
  rewrite index_skip_char by exact Hp.
  do 2 (rewrite index_skip_char by reflexivity).
  rewrite (index_absent _ _ _ _ numeric_not_separator Hn).
  reflexivity.
Qed.

Lemma index_found_here (sep : string) (c : ascii) (s : string) :
  prefix sep (String c s) = true -> index 0 sep (String c s) = Some 0%nat.
Proof.
  intros H. cbn [index]. now rewrite H.
Qed.

Lemma split_fuel_step (fuel : nat) (sep s : string) (i : nat) :
  index 0 sep s = Some i ->
  Text.split_fuel (S fuel) sep s =
    substring 0 i s
      :: Text.split_fuel fuel sep
           (substring (i + String.length sep)
              (String.length s - (i + String.length sep)) s).
Proof.
  intros H. cbn [Text.split_fuel]. now rewrite H.
Qed.

Lemma split_fuel_last (fuel : nat) (sep s : string) :
  index 0 sep s = None -> Text.split_fuel (S fuel) sep s = [s].
Proof.
  intros H. cbn [Text.split_fuel]. now rewrite H.
Qed.

Lemma index_label (t : string) :
  index 0 "：" (label_prefix ++ t) = Some 21%nat.
Proof.
  unfold label_prefix. cbn [append].
  do 21 (rewrite index_skip_char by reflexivity).
  rewrite index_found_here by (destruct t; reflexivity).
  reflexivity.
Qed.

Lemma label_length (t : string) :
  String.length (label_prefix ++ t) = (24 + String.length t)%nat.
Proof. reflexivity. Qed.

Lemma label_head (t : string) :
  substring 0 21 (label_prefix ++ t) = "选中区域平均值".
Proof. reflexivity. Qed.

Lemma label_tail (t : string) :
  substring 24 (String.length t) (label_prefix ++ t) = t.
Proof.
  unfold label_prefix. cbn [append substring]. apply substring_all.
Qed.

Lemma split_label (t : string) :
  Text.all_chars Text.numeric_char t = true ->
  Text.split "：" (label_prefix ++ t) = ["选中区域平均值"; t].
Proof.
  intros Hn. unfold Text.split.
  rewrite (split_fuel_step _ _ _ _ (index_label t)).
  rewrite label_head, label_length.
  change (21 + String.length "：")%nat with 24%nat.
  replace (24 + String.length t - 24)%nat with (String.length t) by lia.
  rewrite label_tail.
  change (24 + String.length t)%nat with (S (23 + String.length t)).
  rewrite split_fuel_last; [reflexivity |].
  apply (index_absent _ _ _ _ numeric_not_separator Hn).
Qed.

End Displayed.

(** ** Copy *)

(** C8. While the placeholder is displayed, a copy sets the hint to the
    "no valid data" text and issues no clipboard operation, whatever the
    clipboard would have done.  While a mean is displayed (the label followed
    by the four-decimal text), a copy during which no clipboard call raises
    leaves the clipboard holding exactly that four-decimal text, and reports
    success. *)
Theorem copy_outcomes (st : WaveformAnalyzer) :
  (forall fault : TkFault,
      mean_var st = placeholder_text ->
      let r := copy_result_to_clipboard fault st in
      snd r = Returned /\
      copy_hint_var (fst r) = "暂无有效数据"%string /\
      clipboard (fst r) = clipboard st /\
      clip_log (fst r) = clip_log st) /\
  (forall q : Q,
      mean_var st = (label_prefix ++ Text.format_4f q)%string ->
      let r := copy_result_to_clipboard NoFault st in
      snd r = Returned /\
      copy_hint_var (fst r) = "复制成功"%string /\
      clipboard (fst r) = Text.format_4f q /\
      clip_log (fst r) =
        clip_log st ++
        [ClipboardClear; ClipboardAppend (Text.format_4f q); RootUpdate]).
Proof.
  split.
  - intros fault H. cbv zeta. unfold copy_result_to_clipboard.
    cbn [mean_var set_copy_hint]. rewrite H.
    change (Text.contains "：--" placeholder_text) with true.
    cbn. repeat split.
  - intros q H. cbv zeta. unfold copy_result_to_clipboard.
    cbn [mean_var set_copy_hint]. rewrite H.
    rewrite (contains_placeholder_free _ (format_4f_numeric q)
               (format_4f_no_double_dash q)).
    rewrite (split_label _ (format_4f_numeric q)).
    cbn [nth_error]. rewrite (strip_id _ (format_4f_numeric q)).
    cbn [fst snd set_copy_hint_foreground set_copy_hint set_clipboard
         clipboard clip_log copy_hint_var append].
    rewrite <- !app_assoc. repeat split.
Qed.


(** ** Where a drag puts the range *)

Section Clamp.

Local Open Scope Q_scope.

Lemma clamp_id (hi x : Q) : 0 <= x -> x <= hi -> Qmax 0 (Qmin hi x) == x.
Proof.
  intros H0 Hh. rewrite (Q.min_r hi x Hh). now apply Q.max_r.
Qed.

Lemma clamp_low (hi x : Q) : x <= 0 -> Qmax 0 (Qmin hi x) == 0.
Proof.
  intros H. apply Q.max_l. eapply Qle_trans; [apply Q.le_min_r | exact H].
Qed.

Lemma clamp_high (hi x : Q) : 0 <= hi -> hi <= x -> Qmax 0 (Qmin hi x) == hi.
Proof.
  intros H0 Hh. rewrite (Q.min_l hi x Hh). now apply Q.max_r.
Qed.

Lemma clamp_ge (hi x a : Q) : a <= hi -> a <= x -> a <= Qmax 0 (Qmin hi x).
Proof.
  intros Hh Hx. eapply Qle_trans; [| apply Q.le_max_r].
  now apply Q.min_glb.
Qed.

Lemma inject_Z_nonneg (z : Z) : (0 <= z)%Z -> 0 <= inject_Z z.
Proof.
  intros H. change 0 with (inject_Z 0). now rewrite <- Zle_Qle.
Qed.

Lemma int_clamp_eq (hi x y : Q) :
  Qmax 0 (Qmin hi x) == y -> Py.int (Qmax 0 (Qmin hi x)) = Qfloor y.
Proof.
  intros H. rewrite int_nonneg by apply clamp_nonneg. now apply Qfloor_comp.
Qed.

Lemma Qfloor_ge_Z (x : Q) (n : Z) : inject_Z n <= x -> (n <= Qfloor x)%Z.
Proof.
  intros H. rewrite <- (Qfloor_Z n). now apply Qfloor_resp_le.
Qed.

Lemma Qfloor_lt_Z (x : Q) (n : Z) : x < inject_Z n -> (Qfloor x < n)%Z.
Proof.
  intros H. rewrite Zlt_Qlt. eapply Qle_lt_trans; [apply Qfloor_le | exact H].
Qed.

End Clamp.

(** A start-edge drag leaves [end_idx] alone and puts [start_idx] at the
    pointer's index, kept inside [0, end_idx - 1]. *)
Theorem start_drag_range (st : WaveformAnalyzer) (ev : MouseEvent) :
  selection_invariant st ->
  move_live st ev ->
  drag_type st = Some DragStart ->
  let st' := fst (on_mouse_move ev st) in
  let x := xdata ev in
  end_idx st' = end_idx st /\
  0 <= start_idx st' <= end_idx st - 1 /\
  ((x <= 0)%Q -> start_idx st' = 0) /\
  ((0 <= x)%Q -> (x < inject_Z (end_idx st - 1))%Q ->
     start_idx st' = Qfloor x) /\
  ((inject_Z (end_idx st - 1) <= x)%Q -> start_idx st' = end_idx st - 1).
Proof.
  intros ((Hs0 & Hse) & Hel) Hlive Ht st' x. subst st' x.
  destruct (move_start_range st ev Hlive Ht) as (Hs & He & _).
  cbv zeta in Hs, He. rewrite Hs, He. clear Hs He.
  destruct (int_clamp_bounds (len_data st - 1) (xdata ev)) as (Hx0 & _).
  split.
  { match goal with |- context [?a >=? ?b] => destruct (Z.geb_spec a b) end;
      lia. }
  split; [lia |].
  split; [| split].
  - intros Hx. rewrite (int_clamp_eq _ _ 0%Q) by now apply clamp_low.
    change (Qfloor 0) with 0. lia.
  - intros Hx0' Hx1.
    assert (Hxl : (xdata ev <= inject_Z (len_data st - 1))%Q).
    { apply Qlt_le_weak. eapply Qlt_le_trans; [exact Hx1 |].
      rewrite <- Zle_Qle. lia. }
    rewrite (int_clamp_eq _ _ (xdata ev)) by now apply clamp_id.
    pose proof (Qfloor_lt_Z _ _ Hx1). lia.
  - intros Hx.
    assert (Hge : (inject_Z (end_idx st - 1) <=
                   Qmax 0 (Qmin (inject_Z (len_data st - 1)) (xdata ev)))%Q).
    { apply clamp_ge; [rewrite <- Zle_Qle; lia | exact Hx]. }
    rewrite int_nonneg by apply clamp_nonneg.
    pose proof (Qfloor_ge_Z _ _ Hge). lia.
Qed.

(** An end-edge drag leaves [start_idx] alone and puts [end_idx] at the
    pointer's index, kept inside [start_idx + 1, length - 1]. *)
Theorem end_drag_range (st : WaveformAnalyzer) (ev : MouseEvent) :
  selection_invariant st ->
  move_live st ev ->
  drag_type st = Some DragEnd ->
  let st' := fst (on_mouse_move ev st) in
  let x := xdata ev in
  start_idx st' = start_idx st /\
  start_idx st + 1 <= end_idx st' <= len_data st - 1 /\
  ((x < inject_Z (start_idx st + 2))%Q -> end_idx st' = start_idx st + 1) /\
  ((inject_Z (start_idx st + 1) <= x)%Q ->
   (x <= inject_Z (len_data st - 1))%Q -> end_idx st' = Qfloor x) /\
  ((inject_Z (len_data st - 1) <= x)%Q -> end_idx st' = len_data st - 1).
Proof.
  intros ((Hs0 & Hse) & Hel) Hlive Ht st' x. subst st' x.
  destruct (move_end_range st ev Hlive Ht) as (Hs & He & _).
  cbv zeta in Hs, He. rewrite Hs, He. clear Hs He.
  destruct (int_clamp_bounds (len_data st - 1) (xdata ev)) as (Hx0 & Hx1 & _).
  assert (Hfix : forall e, start_idx st + 1 <= e ->
            (if start_idx st >=? e then start_idx st + 1 else e) = e).
  { intros e He. destruct (Z.geb_spec (start_idx st) e); lia. }
  rewrite Hfix by lia.
  split; [reflexivity |].
  split; [lia |].
  split; [| split].
  - intros Hx.
    destruct (Qlt_le_dec (xdata ev) 0) as [Hneg | Hpos].
    + rewrite (int_clamp_eq _ _ 0%Q) by (apply clamp_low; now apply Qlt_le_weak).
      change (Qfloor 0) with 0. lia.
    + destruct (Qlt_le_dec (inject_Z (len_data st - 1)) (xdata ev))
        as [Hout | Hin].
      * assert (Hlt : len_data st - 1 < start_idx st + 2).
        { rewrite Zlt_Qlt. eapply Qlt_trans; [exact Hout | exact Hx]. }
        rewrite (int_clamp_eq _ _ (inject_Z (len_data st - 1)))
          by (apply clamp_high;
              [apply inject_Z_nonneg; lia | now apply Qlt_le_weak]).
        rewrite Qfloor_Z. lia.
      * rewrite (int_clamp_eq _ _ (xdata ev)) by now apply clamp_id.
        pose proof (Qfloor_lt_Z _ _ Hx). lia.
  - intros Hlo Hhi.
    assert (H0 : (0 <= xdata ev)%Q).
    { eapply Qle_trans; [| exact Hlo]. apply inject_Z_nonneg. lia. }
    rewrite (int_clamp_eq _ _ (xdata ev)) by now apply clamp_id.
    pose proof (Qfloor_ge_Z _ _ Hlo). lia.
  - intros Hx.
    rewrite (int_clamp_eq _ _ (inject_Z (len_data st - 1)))
      by (apply clamp_high; [apply inject_Z_nonneg; lia | exact Hx]).
    rewrite Qfloor_Z. lia.
Qed.

(** ** Where a whole-span drag puts the range *)

Section WholeSpan.

Local Open Scope Q_scope.

Lemma sub_float (a : Num.num) (q : Q) :
  Num.sub a (Num.Float q) = Num.Float (B64.rnd (Num.to_float a - q)).
Proof. destruct a; reflexivity. Qed.

(** The three outcomes of [max(0, min(L, t))] for a float [t]. *)
Lemma clamp_start_low (L : Z) (t : Q) :
  t <= 0 \/ (L <= 0)%Z ->
  Num.max (Num.Int 0) (Num.min (Num.Int L) (Num.Float t)) = Num.Int 0.
Proof.
  intros H.
  assert (H' : t <= 0 \/ inject_Z L <= 0).
  { destruct H as [H | H]; [now left | right].
    rewrite Zle_Qle in H. exact H. }
  unfold Num.max, Num.min.
  destruct (Num.lt (Num.Float t) (Num.Int L)) eqn:E1.
  - apply lt_spec in E1. cbn [Num.val] in E1.
    destruct (Num.lt (Num.Int 0) (Num.Float t)) eqn:E2; [| reflexivity].
    apply lt_spec in E2. cbn [Num.val] in E2.
    change (inject_Z 0) with 0 in E2. exfalso. lra.
  - apply lt_false in E1. cbn [Num.val] in E1.
    destruct (Num.lt (Num.Int 0) (Num.Int L)) eqn:E2; [| reflexivity].
    apply lt_spec in E2. cbn [Num.val] in E2.
    change (inject_Z 0) with 0 in E2. exfalso. lra.
Qed.

Lemma clamp_start_high (L : Z) (t : Q) :
  (0 < L)%Z -> inject_Z L <= t ->
  Num.max (Num.Int 0) (Num.min (Num.Int L) (Num.Float t)) = Num.Int L.
Proof.
  intros HL Ht. unfold Num.max, Num.min.
  rewrite (proj2 (lt_false (Num.Float t) (Num.Int L))) by exact Ht.
  rewrite (proj2 (lt_spec (Num.Int 0) (Num.Int L))); [reflexivity |].
  cbn [Num.val]. now rewrite <- Zlt_Qlt.
Qed.

Lemma clamp_start_mid (L : Z) (t : Q) :
  0 < t -> t < inject_Z L ->
  Num.max (Num.Int 0) (Num.min (Num.Int L) (Num.Float t)) = Num.Float t.
Proof.
  intros H0 Ht. unfold Num.max, Num.min.
  rewrite (proj2 (lt_spec (Num.Float t) (Num.Int L))) by exact Ht.
  rewrite (proj2 (lt_spec (Num.Int 0) (Num.Float t))); [reflexivity |].
  exact H0.
Qed.

(** The range after a whole-span drag, by the requested start [t] (the
    float [new_x - drag_offset]) and the highest start [L]. *)
Lemma whole_span_result (st : WaveformAnalyzer) (ev : MouseEvent) (off : Q) :
  (0 <= start_idx st < end_idx st)%Z ->
  (end_idx st <= len_data st)%Z ->
  (len_data st <= 2 ^ 53)%Z ->
  move_live st ev ->
  drag_type st = Some DragMove ->
  drag_offset st = Some off ->
  let st' := fst (on_mouse_move ev st) in
  let w := (end_idx st - start_idx st)%Z in
  let L := (len_data st - w)%Z in
  let new_x :=
    Num.max (Num.Int 0)
      (Num.min (Num.Int (len_data st - 1)) (Num.Float (xdata ev))) in
  let t := B64.rnd (Num.to_float new_x - off) in
  col_data st' = col_data st /\
  (t <= 0 \/ (L <= 0)%Z -> start_idx st' = 0%Z /\ end_idx st' = w) /\
  ((0 < L)%Z -> inject_Z L <= t ->
     start_idx st' = L /\ end_idx st' = len_data st) /\
  (0 < t -> t < inject_Z L ->
     start_idx st' = Qfloor t /\
     end_idx st' = Qfloor (B64.rnd (t + B64.rnd (inject_Z w))) /\
     (Qfloor t + w <= end_idx st' <= Qfloor t + w + 1)%Z /\
     (end_idx st' <= len_data st)%Z).
Proof.
  intros (Hs0 & Hse) Hel Hlen Hlive Ht Ho.
  destruct (move_whole_range st ev off Hlive Ht Ho) as (Hs & He & Hc).
  cbv zeta in *. rewrite sub_float in Hs, He.
  set (w := (end_idx st - start_idx st)%Z) in *.
  set (L := (len_data st - w)%Z) in *.
  set (t := B64.rnd _) in *.
  split; [exact Hc |].
  split; [| split].
  - intros Hlow. rewrite (clamp_start_low L t Hlow) in Hs, He.
    cbn [Num.int Num.add] in Hs, He. rewrite Hs, He. split; [reflexivity |].
    destruct (Z.geb_spec 0 (0 + w)); lia.
  - intros HL Hhigh. rewrite (clamp_start_high L t HL Hhigh) in Hs, He.
    cbn [Num.int Num.add] in Hs, He. rewrite Hs, He. split; [reflexivity |].
    destruct (Z.geb_spec L (L + w)); lia.
  - intros H0 Hmid. rewrite (clamp_start_mid L t H0 Hmid) in Hs, He.
    cbn [Num.int Num.add Num.to_float] in Hs, He.
    assert (Hw : B64.rnd (inject_Z w) == inject_Z w)
      by (apply rnd_int; lia).
    pose proof (Qfloor_le t) as Hf1. pose proof (Qlt_floor t) as Hf2.
    pose proof (Qfloor_lt_Z _ _ Hmid) as HfL.
    pose proof (Qfloor_nonneg t (Qlt_le_weak _ _ H0)) as Hf0.
    set (y := t + B64.rnd (inject_Z w)) in *.
    assert (Hy0 : 0 < y).
    { unfold y. rewrite Hw.
      assert (0 <= inject_Z w) by (apply inject_Z_nonneg; lia). lra. }
    assert (Hlo : inject_Z (Qfloor t + w) <= B64.rnd y).
    { apply rnd_ge_int; [exact Hy0 | | lia].
      unfold y. rewrite Hw, inject_Z_plus. lra. }
    assert (Hhi : B64.rnd y <= inject_Z (Qfloor t + 1 + w)).
    { apply rnd_le_int; [exact Hy0 | | lia].
      unfold y. rewrite Hw, inject_Z_plus. lra. }
    assert (Hr0 : 0 <= B64.rnd y).
    { eapply Qle_trans; [| exact Hlo]. apply inject_Z_nonneg. lia. }
    rewrite (int_nonneg t) in Hs, He by lra.
    rewrite (int_nonneg (B64.rnd y)) in He by exact Hr0.
    apply Qfloor_ge_Z in Hlo. apply Qfloor_le_Z in Hhi.
    destruct (Z.geb_spec (Qfloor t) (Qfloor (B64.rnd y))) as [G | G];
      [lia |].
    rewrite Hs, He. repeat split; lia.
Qed.

End WholeSpan.

(** With the range inside the data and at most [2^53] values, a whole-span
    drag never puts [start_idx] below 0 nor [end_idx] above the length, and
    the width after it is the width before or one more: the two ends are
    truncated one by one.  Once the requested start reaches
    [length - width], the range is [(length - width, length)]. *)
Theorem whole_span_bounds
  (st : WaveformAnalyzer) (ev : MouseEvent) (off : Q) :
  selection_invariant st ->
  len_data st <= 2 ^ 53 ->
  move_live st ev ->
  drag_type st = Some DragMove ->
  drag_offset st = Some off ->
  let st' := fst (on_mouse_move ev st) in
  let width := end_idx st - start_idx st in
  let new_x :=
    Num.max (Num.Int 0)
      (Num.min (Num.Int (len_data st - 1)) (Num.Float (xdata ev))) in
  let requested := Num.val (Num.sub new_x (Num.Float off)) in
  0 <= start_idx st' /\
  width <= end_idx st' - start_idx st' <= width + 1 /\
  end_idx st' <= len_data st' /\
  ((inject_Z (len_data st - width) <= requested)%Q ->
     start_idx st' = len_data st - width /\ end_idx st' = len_data st').
Proof.
  intros ((Hs0 & Hse) & Hel) Hlen Hlive Ht Ho.
  destruct (whole_span_result st ev off) as (Hc & Hlow & Hhigh & Hmid);
    try assumption; [lia | lia |].
  cbv zeta in *. rewrite sub_float. cbn [Num.val].
  rewrite (len_data_col _ _ Hc).
  set (w := end_idx st - start_idx st) in *.
  set (t := B64.rnd _) in *.
  assert (HL : 0 < len_data st - w) by lia.
  destruct (Qlt_le_dec 0 t) as [H0 | H0].
  - destruct (Qlt_le_dec t (inject_Z (len_data st - w))) as [H1 | H1].
    + destruct (Hmid H0 H1) as (Es & _ & Eb & El).
      pose proof (Qfloor_nonneg t (Qlt_le_weak _ _ H0)).
      split; [lia |]. split; [lia |]. split; [lia |].
      intros H2. exfalso. exact (Qlt_not_le _ _ H1 H2).
    + destruct (Hhigh HL H1) as (Es & Ee).
      split; [lia |]. split; [lia |]. split; [lia |].
      intros _. split; lia.
  - destruct (Hlow (or_introl H0)) as (Es & Ee).
    split; [lia |]. split; [lia |]. split; [lia |].
    intros H2. exfalso.
    assert (Hq : (inject_Z (len_data st - w) <= 0)%Q)
      by (eapply Qle_trans; eassumption).
    change 0%Q with (inject_Z 0) in Hq. rewrite <- Zle_Qle in Hq. lia.
Qed.

Lemma press_interior (st : WaveformAnalyzer) (ev : MouseEvent) (d : list f64) :
  col_data st = Some d ->
  inaxes ev = true ->
  within_tolerance (xdata ev) (start_idx st) = false ->
  within_tolerance (xdata ev) (end_idx st) = false ->
  (inject_Z (start_idx st) <= xdata ev)%Q ->
  (xdata ev <= inject_Z (end_idx st))%Q ->
  on_mouse_press ev st =
    set_drag_offset
      (Some (B64.rnd (xdata ev - B64.rnd (inject_Z (start_idx st)))))
      (set_drag true (Some DragMove) st).
Proof.
  intros Hd Hin H1 H2 H3 H4. unfold on_mouse_press.
  unfold within_tolerance in H1, H2.
  rewrite Hd, Hin. cbn [negb]. rewrite H1, H2.
  rewrite (proj2 (interior_spec (Num.Int (start_idx st))
                    (Num.Float (xdata ev)) (Num.Int (end_idx st)))
             (conj H3 H4)).
  reflexivity.
Qed.

(** Grabbing the span in its interior and moving the pointer by [k] index
    units shifts both ends by exactly [k], as long as the pointer and the
    shifted range stay inside the data and the column has at most [2^53]
    values (the floats in play are then exact). *)
Theorem whole_span_shift
  (st : WaveformAnalyzer) (ev0 ev1 : MouseEvent) (d : list f64) (k : Z) :
  selection_invariant st ->
  col_data st = Some d ->
  len_data st <= 2 ^ 53 ->
  inaxes ev0 = true ->
  inaxes ev1 = true ->
  within_tolerance (xdata ev0) (start_idx st) = false ->
  within_tolerance (xdata ev0) (end_idx st) = false ->
  (inject_Z (start_idx st) <= xdata ev0)%Q ->
  (xdata ev0 <= inject_Z (end_idx st))%Q ->
  (xdata ev1 == xdata ev0 + inject_Z k)%Q ->
  (0 <= xdata ev1)%Q ->
  (xdata ev1 <= inject_Z (len_data st - 1))%Q ->
  0 <= start_idx st + k ->
  end_idx st + k <= len_data st - 1 ->
  let st' := fst (on_mouse_move ev1 (on_mouse_press ev0 st)) in
  start_idx st' = start_idx st + k /\ end_idx st' = end_idx st + k.
Proof.
  intros ((Hs0 & Hse) & Hel) Hd Hlen Hi0 Hi1 Hn1 Hn2 Hl Hr Hk Hx0 Hx1 Hk0 Hk1.
  rewrite (press_interior st ev0 d) by assumption.
  set (off := B64.rnd (xdata ev0 - B64.rnd (inject_Z (start_idx st)))).
  set (st1 := set_drag_offset _ _).
  assert (Hrs : (B64.rnd (inject_Z (start_idx st)) == inject_Z (start_idx st))%Q)
    by (apply rnd_int; lia).
  assert (He53 : (inject_Z (end_idx st) <= inject_Z (2 ^ 53))%Q)
    by (rewrite <- Zle_Qle; lia).
  assert (Hoff : (off == xdata ev0 - inject_Z (start_idx st))%Q).
  { unfold off.
    transitivity (xdata ev0 - B64.rnd (inject_Z (start_idx st)))%Q;
      [| rewrite Hrs; reflexivity].
    apply (rnd_sub_int (xraw ev0) (start_idx st)).
    - exact Hs0.
    - exact Hl.
    - eapply Qle_trans; [exact Hr | exact He53].
    - fold (xdata ev0). rewrite Hrs. reflexivity. }
  (* the clamped pointer, converted to float, is the pointer *)
  assert (Hnx :
    (Num.to_float
       (Num.max (Num.Int 0)
          (Num.min (Num.Int (len_data st - 1)) (Num.Float (xdata ev1)))) ==
     xdata ev1)%Q).
  { unfold Num.max, Num.min.
    destruct (Num.lt (Num.Float (xdata ev1)) (Num.Int (len_data st - 1)))
      eqn:E1.
    - destruct (Num.lt (Num.Int 0) (Num.Float (xdata ev1))) eqn:E2;
        [reflexivity |].
      apply lt_false in E2. cbn [Num.val Num.to_float] in *.
      change (inject_Z 0) with 0%Q in *.
      transitivity 0%Q; [reflexivity | lra].
    - apply lt_false in E1. cbn [Num.val] in E1.
      destruct (Num.lt (Num.Int 0) (Num.Int (len_data st - 1))) eqn:E2.
      + cbn [Num.to_float]. rewrite rnd_int by lia. lra.
      + apply lt_false in E2. cbn [Num.val Num.to_float] in *.
        change (inject_Z 0) with 0%Q in *.
        transitivity 0%Q; [reflexivity | lra]. }
  destruct (whole_span_result st1 ev1 off) as (_ & Hlow & _ & Hmid).
  - exact (conj Hs0 Hse).
  - change (end_idx st1) with (end_idx st).
    change (len_data st1) with (len_data st). lia.
  - exact Hlen.
  - subst st1. repeat split; simpl; congruence.
  - reflexivity.
  - reflexivity.
  - cbv zeta in *.
    change (len_data st1) with (len_data st) in *.
    change (start_idx st1) with (start_idx st) in *.
    change (end_idx st1) with (end_idx st) in *.
    set (w := end_idx st - start_idx st) in *.
    set (t := B64.rnd (Num.to_float _ - off)) in *.
    assert (Harg :
      (Num.to_float
         (Num.max (Num.Int 0)
            (Num.min (Num.Int (len_data st - 1)) (Num.Float (xdata ev1)))) -
       off == inject_Z (start_idx st + k))%Q).
    { rewrite Hnx, Hoff, Hk, inject_Z_plus. ring. }
    destruct (Z.eq_dec (start_idx st + k) 0) as [Hz | Hz].
    + assert (Et : t = 0%Q).
      { unfold t. apply rnd_zero. rewrite Harg, Hz. reflexivity. }
      destruct Hlow as (Es & Ee); [left; rewrite Et; lra |]. lia.
    + assert (Et : (t == inject_Z (start_idx st + k))%Q).
      { unfold t. etransitivity; [| exact Harg].
        apply (rnd_fixed _ (start_idx st + k) 0); [lia | lia |].
        change (B64.pow2 0) with 1%Q. rewrite Harg. ring. }
      destruct Hmid as (Es & Ee & _).
      * rewrite Et. change 0%Q with (inject_Z 0). rewrite <- Zlt_Qlt. lia.
      * rewrite Et, <- Zlt_Qlt. lia.
      * rewrite Es, Ee.
        rewrite (Qfloor_comp _ _ Et), Qfloor_Z. split; [reflexivity |].
        assert (Hsum :
          (t + B64.rnd (inject_Z w) == inject_Z (start_idx st + k + w))%Q).
        { rewrite Et, (rnd_int w) by lia. rewrite <- inject_Z_plus.
          reflexivity. }
        assert (Hrnd :
          (B64.rnd (t + B64.rnd (inject_Z w)) ==
           inject_Z (start_idx st + k + w))%Q).
        { etransitivity; [| exact Hsum].
          apply (rnd_fixed _ (start_idx st + k + w) 0); [lia | lia |].
          change (B64.pow2 0) with 1%Q. rewrite Hsum. ring. }
        rewrite (Qfloor_comp _ _ Hrnd), Qfloor_Z. lia.
Qed.

(** ** What each callback can do to the state *)

Lemma run_invariant (P : WaveformAnalyzer -> Prop) :
  (forall e st, P st -> P (step e st)) ->
  forall es st, P st -> P (run es st).
Proof.
  intros Hstep es. induction es as [| e es IH]; intros st H; simpl.
  - exact H.
  - apply IH, Hstep, H.
Qed.

Lemma redraw_rect (st : WaveformAnalyzer) :
  let st' := _calculate_mean (_draw_selection_rect st) in
  selection_rect st' = Some (start_idx st', end_idx st').
Proof.
  cbv zeta. unfold _calculate_mean.
  destruct (col_data (_draw_selection_rect st)); [| reflexivity].
  match goal with |- context [if ?b then _ else _] => destruct b end;
    reflexivity.
Qed.

(** The ways [on_mouse_move] ends: ignored; stopped by the missing
    attribute; or a redraw of a state that differs from the old one in the
    range only. *)
Lemma move_cases (ev : MouseEvent) (st : WaveformAnalyzer) :
  on_mouse_move ev st = (st, Returned) \/
  (on_mouse_move ev st = (st, Raised AttributeError) /\
   drag_type st = Some DragMove /\ drag_offset st = None) \/
  (exists st0,
      on_mouse_move ev st =
        (_calculate_mean (_draw_selection_rect st0), Returned) /\
      col_data st <> None /\
      col_data st0 = col_data st /\ is_dragging st0 = is_dragging st /\
      drag_type st0 = drag_type st /\ drag_offset st0 = drag_offset st /\
      clipboard st0 = clipboard st /\ clip_log st0 = clip_log st /\
      copy_hint_var st0 = copy_hint_var st).
Proof.
  unfold on_mouse_move.
  destruct (col_data st) as [d |] eqn:Ed; [| now left].
  destruct (negb (is_dragging st) || negb (inaxes ev)); [now left |].
  destruct (drag_type st) as [[| |] |] eqn:Et.
  - right; right. eexists. split; [reflexivity |].
    simpl. rewrite Ed, Et. repeat split; congruence.
  - right; right. eexists. split; [reflexivity |].
    simpl. rewrite Ed, Et. repeat split; congruence.
  - destruct (drag_offset st) as [off |] eqn:Eo.
    + right; right. eexists. split; [reflexivity |].
      simpl. rewrite Ed, Et, Eo. repeat split; congruence.
    + right; left. repeat split.
  - right; right. exists st. split; [reflexivity |].
    rewrite Ed. repeat split; congruence.
Qed.

(** The ways [load_column_data] ends. *)
Lemma load_cases (st : WaveformAnalyzer) :
  load_column_data st = (st, Returned) \/
  load_column_data st = (st, Raised KeyError) \/
  (exists c,
      load_column_data st =
        (set_col_data (Some (dropna c)) st, Raised AttributeError) /\
      dropna c = []) \/
  (exists c st3,
      load_column_data st =
        (_calculate_mean (_draw_selection_rect st3), Returned) /\
      col_data st3 = Some (dropna c) /\
      1 <= Z.of_nat (List.length (dropna c)) /\
      start_idx st3 = 0 /\
      end_idx st3 = Z.min 20000 (Z.of_nat (List.length (dropna c)) - 1) /\
      is_dragging st3 = is_dragging st /\ drag_type st3 = drag_type st /\
      drag_offset st3 = drag_offset st /\
      clipboard st3 = clipboard st /\ clip_log st3 = clip_log st /\
      copy_hint_var st3 = copy_hint_var st).
Proof.
  unfold load_column_data.
  destruct (df st) as [t |]; [| now left].
  destruct (String.eqb (col_var st) ""); [now left |].
  destruct (lookup_column (col_var st) t) as [c |]; [| now right; left].
  change (len_data (set_col_data (Some (dropna c)) st))
    with (Z.of_nat (List.length (dropna c))).
  destruct (Z.eqb_spec (Z.of_nat (List.length (dropna c))) 0) as [Hz | Hnz].
  - right; right; left. exists c. split; [reflexivity |].
    destruct (dropna c); [reflexivity | simpl in Hz; lia].
  - right; right; right. exists c. eexists. split; [reflexivity |].
    simpl. repeat split. lia.
Qed.

(** A press only writes the three drag fields. *)
Lemma press_cases (ev : MouseEvent) (st : WaveformAnalyzer) :
  on_mouse_press ev st = st \/
  (col_data st <> None /\
   (on_mouse_press ev st = set_drag true (Some DragStart) st \/
    on_mouse_press ev st = set_drag true (Some DragEnd) st \/
    exists off,
      on_mouse_press ev st =
        set_drag_offset (Some off) (set_drag true (Some DragMove) st))).
Proof.
  unfold on_mouse_press.
  destruct (col_data st) eqn:Ed; [| now left].
  destruct (negb (inaxes ev)); [now left |].
  destruct (Num.lt _ _).
  { right. split; [discriminate | now left]. }
  destruct (Num.lt _ _).
  { right. split; [discriminate | right; now left]. }
  destruct (_ && _); [| now left].
  right. split; [discriminate | right; right; eexists; reflexivity].
Qed.

Lemma copy_frame (fault : TkFault) (st : WaveformAnalyzer) :
  let st' := fst (copy_result_to_clipboard fault st) in
  selection_rect st' = selection_rect st /\
  is_dragging st' = is_dragging st /\ drag_type st' = drag_type st /\
  drag_offset st' = drag_offset st.
Proof.
  cbv zeta. unfold copy_result_to_clipboard.
  destruct (Text.contains _ _); [cbn; auto |].
  destruct (nth_error _ _); [| cbn; auto].
  destruct fault; cbn; auto.
Qed.

(** ** Drag state *)

Lemma drag_consistent_ext (st st' : WaveformAnalyzer) :
  is_dragging st' = is_dragging st ->
  drag_type st' = drag_type st ->
  drag_offset st' = drag_offset st ->
  (col_data st <> None -> col_data st' <> None) ->
  drag_consistent st -> drag_consistent st'.
Proof.
  unfold drag_consistent. intros -> -> -> Hc (H1 & H2 & H3).
  split; [exact H1 |]. split; [exact H2 | auto].
Qed.

Lemma drag_consistent_redraw (st st0 : WaveformAnalyzer) :
  is_dragging st0 = is_dragging st ->
  drag_type st0 = drag_type st ->
  drag_offset st0 = drag_offset st ->
  (col_data st <> None -> col_data st0 <> None) ->
  drag_consistent st ->
  drag_consistent (_calculate_mean (_draw_selection_rect st0)).
Proof.
  intros Hg Ht Ho Hc H.
  destruct (redraw_fields st0) as (_ & _ & Rc & Rg & Rt & Ro & _).
  cbv zeta in *.
  apply (drag_consistent_ext st); try congruence.
  rewrite Rc. exact Hc.
Qed.

Lemma step_drag_consistent (e : Event) (st : WaveformAnalyzer) :
  drag_consistent st -> drag_consistent (step e st).
Proof.
  intros H.
  destruct e as [picked | name | ev | ev | ev | fault]; simpl.
  - destruct picked; [| exact H].
    apply (drag_consistent_ext st); auto.
  - assert (H' : drag_consistent (set_col_var name st))
      by (apply (drag_consistent_ext st); auto).
    destruct (load_cases (set_col_var name st))
      as [-> | [-> | [(c & -> & _) | (c & st3 & -> & Hc & _ & _ & _ &
                                        Hg & Ht & Ho & _)]]];
      cbn [fst].
    + exact H'.
    + exact H'.
    + apply (drag_consistent_ext st); auto. intros _. discriminate.
    + apply (drag_consistent_redraw st); auto.
      intros _. rewrite Hc. discriminate.
  - destruct (press_cases ev st) as [-> | (Hc & [-> | [-> | (off & ->)]])];
      [exact H | | |];
      (split; [split; [discriminate | reflexivity] |]);
      (split; [| intros _; exact Hc]); intros; discriminate.
  - destruct (move_cases ev st)
      as [-> | [(-> & _) | (st0 & -> & _ & Hc & Hg & Ht & Ho & _)]];
      cbn [fst]; [exact H | exact H |].
    apply (drag_consistent_redraw st); auto. now rewrite Hc.
  - split; [split; [discriminate | intros H0; now elim H0] |].
    split; discriminate.
  - destruct (copy_frame fault st) as (_ & Rg & Rt & Ro).
    destruct (copy_fields fault st) as (_ & _ & Rc & _).
    cbv zeta in *.
    apply (drag_consistent_ext st); auto. now rewrite Rc.
Qed.

(** In every session the drag fields agree: [is_dragging] is set exactly
    when [drag_type] is, a whole-span drag always has its offset recorded,
    and a drag is only active with a column loaded.  So [on_mouse_move]
    never reads the attribute [drag_offset] before a press created it: it
    returns normally in every reachable state. *)
Theorem drag_state_consistent (es : list Event) :
  drag_consistent (run es init) /\
  forall ev : MouseEvent, snd (on_mouse_move ev (run es init)) = Returned.
Proof.
  assert (H : drag_consistent (run es init)).
  { apply run_invariant; [exact step_drag_consistent |].
    unfold drag_consistent, init; simpl.
    split; [split; [discriminate | intros H; now elim H] |].
    split; discriminate. }
  split; [exact H |].
  intros ev. destruct H as (_ & H2 & _).
  destruct (move_cases ev (run es init))
    as [-> | [(_ & Ht & Ho) | (st0 & -> & _)]]; try reflexivity.
  now elim (H2 Ht).
Qed.

(** ** The text on display *)

Lemma calculate_mean_form (st : WaveformAnalyzer) :
  col_data st <> None -> displayed_form (_calculate_mean st).
Proof.
  intros Hc. destruct (col_data st) as [d |] eqn:Ed; [| congruence].
  destruct (calculate_mean_cases st d Ed) as [(_ & ->) | (_ & ->)].
  - left. reflexivity.
  - right. eexists. reflexivity.
Qed.

Lemma step_displayed_form (e : Event) (st : WaveformAnalyzer) :
  displayed_form st -> displayed_form (step e st).
Proof.
  intros H.
  destruct e as [picked | name | ev | ev | ev | fault]; simpl.
  - destruct picked; exact H.
  - destruct (load_cases (set_col_var name st))
      as [-> | [-> | [(c & -> & _) | (c & st3 & -> & Hc & _)]]];
      cbn [fst]; try exact H.
    apply calculate_mean_form.
    destruct (draw_selection_rect_fields st3) as (_ & _ & Rc & _).
    cbv zeta in Rc. rewrite Rc, Hc. discriminate.
  - destruct (press_cases ev st) as [-> | (_ & [-> | [-> | (off & ->)]])];
      exact H.
  - destruct (move_cases ev st)
      as [-> | [(-> & _) | (st0 & -> & Hn & Hc & _)]];
      cbn [fst]; try exact H.
    apply calculate_mean_form.
    destruct (draw_selection_rect_fields st0) as (_ & _ & Rc & _).
    cbv zeta in Rc. now rewrite Rc, Hc.
  - exact H.
  - destruct (copy_fields fault st) as (_ & _ & _ & Rm).
    cbv zeta in Rm. unfold displayed_form. now rewrite Rm.
Qed.

Lemma contains_float_free (v : f64) :
  Text.contains "：--" (label_prefix ++ format_float v) = false.
Proof.
  destruct v as [q | | [|] |]; try reflexivity.
  apply contains_placeholder_free;
    [apply format_4f_numeric | apply format_4f_no_double_dash].
Qed.

Lemma split_float (v : f64) :
  Text.split "：" (label_prefix ++ format_float v) =
    ["选中区域平均值"%string; format_float v].
Proof.
  destruct v as [q | | [|] |]; try reflexivity.
  apply split_label, format_4f_numeric.
Qed.

Lemma float_text_not_placeholder (v : f64) :
  (label_prefix ++ format_float v)%string <> placeholder_text.
Proof.
  intros E.
  assert (Hc : Text.contains "：--" placeholder_text = false)
    by (rewrite <- E; apply contains_float_free).
  discriminate Hc.
Qed.

Lemma copy_on_form (fault : TkFault) (st : WaveformAnalyzer) :
  displayed_form st ->
  let r := copy_result_to_clipboard fault st in
  snd r = Returned /\
  ((mean_var st = placeholder_text /\
    copy_hint_var (fst r) = "暂无有效数据"%string /\
    copy_hint_foreground (fst r) = "red"%string) \/
   (mean_var st <> placeholder_text /\ fault = NoFault /\
    copy_hint_var (fst r) = "复制成功"%string /\
    copy_hint_foreground (fst r) = "green"%string) \/
   (mean_var st <> placeholder_text /\ fault <> NoFault /\
    copy_hint_var (fst r) = "复制失败"%string /\
    copy_hint_foreground (fst r) = "red"%string)).
Proof.
  intros [Hp | (v & Hv)]; cbv zeta; unfold copy_result_to_clipboard;
    cbn [mean_var set_copy_hint].
  - rewrite Hp. change (Text.contains "：--" placeholder_text) with true.
    cbn. split; [reflexivity |]. left. repeat split.
  - pose proof (float_text_not_placeholder v) as Hne.
    rewrite Hv. rewrite contains_float_free, split_float.
    cbn [nth_error].
    destruct fault; cbn; (split; [reflexivity |]).
    + right; left. split; [exact Hne |]. repeat split.
    + right; right. split; [exact Hne |]. split; [discriminate |].
      repeat split.
    + right; right. split; [exact Hne |]. split; [discriminate |].
      repeat split.
    + right; right. split; [exact Hne |]. split; [discriminate |].
      repeat split.
Qed.

(** In every session the display holds the placeholder or the label
    followed by the text of a float: a four-decimal number or one of
    [inf], [-inf] and [nan]. *)
Theorem display_always_formed (es : list Event) :
  displayed_form (run es init).
Proof.
  apply run_invariant; [exact step_displayed_form |].
  left. reflexivity.
Qed.

(** In every session a copy returns normally (the [split] always finds its
    second part) and sets exactly one of the three hints: "no valid data" in
    red when the placeholder is displayed; otherwise "copied" in green when
    no clipboard call raises, and "copy failed" in red when one does. *)
Theorem copy_always_returns (es : list Event) (fault : TkFault) :
  let st := run es init in
  let r := copy_result_to_clipboard fault st in
  snd r = Returned /\
  ((mean_var st = placeholder_text /\
    copy_hint_var (fst r) = "暂无有效数据"%string /\
    copy_hint_foreground (fst r) = "red"%string) \/
   (mean_var st <> placeholder_text /\ fault = NoFault /\
    copy_hint_var (fst r) = "复制成功"%string /\
    copy_hint_foreground (fst r) = "green"%string) \/
   (mean_var st <> placeholder_text /\ fault <> NoFault /\
    copy_hint_var (fst r) = "复制失败"%string /\
    copy_hint_foreground (fst r) = "red"%string)).
Proof.
  apply copy_on_form.
  apply run_invariant; [exact step_displayed_form |].
  left. reflexivity.
Qed.

(** ** The rectangle *)




(** ** Sessions without an empty column *)

Lemma run_clean_invariant (P : WaveformAnalyzer -> Prop) :
  (forall e st,
      P st ->
      match e with
      | ComboboxSelected name =>
          empty_refused (load_column_data (set_col_var name st)) = false
      | _ => True
      end ->
      P (step e st)) ->
  forall es st, P st -> no_empty_selection es st = true -> P (run es st).
Proof.
  intros Hstep es. induction es as [| e es IH]; intros st H Hc; simpl.
  - exact H.
  - simpl in Hc. apply andb_true_iff in Hc as (He & Hes).
    apply IH; [| exact Hes]. apply Hstep; [exact H |].
    destruct e; try exact I. now apply negb_true_iff in He.
Qed.

Lemma calculate_mean_depends (st1 st2 : WaveformAnalyzer) :
  col_data st1 <> None ->
  col_data st2 = col_data st1 ->
  start_idx st2 = start_idx st1 ->
  end_idx st2 = end_idx st1 ->
  mean_var (_calculate_mean st2) = mean_var (_calculate_mean st1).
Proof.
  intros Hn Hc Hs He. unfold _calculate_mean. rewrite Hc, Hs, He.
  destruct (col_data st1); [| congruence].
  match goal with |- context [if ?b then _ else _] => destruct b end;
    reflexivity.
Qed.

Lemma calculate_mean_in_sync (st : WaveformAnalyzer) :
  display_in_sync (_calculate_mean st).
Proof.
  unfold display_in_sync.
  destruct (col_data st) as [d |] eqn:Ed.
  - destruct (calculate_mean_fields st) as (Hs & He & Hc & _).
    cbv zeta in *. apply calculate_mean_depends; congruence.
  - unfold _calculate_mean at 1 2 3. rewrite Ed. unfold _calculate_mean.
    now rewrite Ed.
Qed.

Lemma display_in_sync_ext (st st' : WaveformAnalyzer) :
  col_data st' = col_data st ->
  start_idx st' = start_idx st ->
  end_idx st' = end_idx st ->
  mean_var st' = mean_var st ->
  display_in_sync st -> display_in_sync st'.
Proof.
  unfold display_in_sync. intros Hc Hs He Hm H.
  destruct (col_data st) as [d |] eqn:Ed.
  - rewrite Hm, <- H. apply calculate_mean_depends; congruence.
  - unfold _calculate_mean. now rewrite Hc.
Qed.

Lemma step_display_in_sync (e : Event) (st : WaveformAnalyzer) :
  display_in_sync st ->
  match e with
  | ComboboxSelected name =>
      empty_refused (load_column_data (set_col_var name st)) = false
  | _ => True
  end ->
  display_in_sync (step e st).
Proof.
  intros H Hw.
  destruct e as [picked | name | ev | ev | ev | fault]; simpl.
  - destruct picked; [| exact H]. now apply (display_in_sync_ext st).
  - assert (H' : display_in_sync (set_col_var name st))
      by now apply (display_in_sync_ext st).
    destruct (load_cases (set_col_var name st))
      as [E | [E | [(c & E & _) | (c & st3 & E & _)]]];
      rewrite E in *; cbn [fst].
    + exact H'.
    + exact H'.
    + discriminate Hw.
    + apply calculate_mean_in_sync.
  - destruct (on_mouse_press_range ev st) as (Hs & He & Hc).
    cbv zeta in *. apply (display_in_sync_ext st); try assumption.
    destruct (press_cases ev st) as [-> | (_ & [-> | [-> | (off & ->)]])];
      reflexivity.
  - destruct (move_cases ev st)
      as [-> | [(-> & _) | (st0 & -> & _)]]; cbn [fst]; try exact H.
    apply calculate_mean_in_sync.
  - now apply (display_in_sync_ext st).
  - destruct (copy_fields fault st) as (Hs & He & Hc & Hm).
    cbv zeta in *. now apply (display_in_sync_ext st).
Qed.

(** In a session where no column selection stops in the empty-column
    branch, the text on display is always the one [_calculate_mean] gives
    for the current column and range: the placeholder or the mean of
    [data[start], ..., data[end]] after clamping. *)
Theorem display_follows_range (es : list Event) :
  no_empty_selection es init = true ->
  display_in_sync (run es init).
Proof.
  apply (run_clean_invariant display_in_sync).
  - exact step_display_in_sync.
  - reflexivity.
Qed.


(** ** The range never passes the length *)

Lemma step_within_length (e : Event) (st : WaveformAnalyzer) :
  ordered st /\ within_length st /\ len_data st <= 2 ^ 53 ->
  match e with
  | ComboboxSelected name =>
      empty_refused (load_column_data (set_col_var name st)) = false
  | _ => True
  end ->
  ordered (step e st) /\ within_length (step e st).
Proof.
  intros (Ho & Hl & Hlen) Hw. split; [now apply step_ordered |].
  unfold within_length in *.
  destruct e as [picked | name | ev | ev | ev | fault]; simpl.
  - destruct picked; exact Hl.
  - destruct (load_cases (set_col_var name st))
      as [E | [E | [(c & E & _) | (c & st3 & E & Hc & Hn & Hs & He & _)]]];
      rewrite E in *; cbn [fst].
    + exact Hl.
    + exact Hl.
    + discriminate Hw.
    + destruct (redraw_fields st3) as (_ & Re & Rc & _).
      cbv zeta in *. rewrite Re, Rc, Hc, Hs, He.
      intros d [= <-].
      match goal with |- context [?a >=? ?b] => destruct (Z.geb_spec a b) end;
        lia.
  - destruct (on_mouse_press_range ev st) as (_ & He & Hc).
    cbv zeta in *. now rewrite He, Hc.
  - destruct (col_data st) as [d0 |] eqn:Ed.
    2:{ rewrite move_ignored; [cbn [fst]; rewrite Ed; exact Hl |]. intros (H & _). congruence. }
    destruct (is_dragging st) eqn:Eg.
    2:{ rewrite move_ignored; [cbn [fst]; rewrite Ed; exact Hl |]. intros (_ & H & _). congruence. }
    destruct (inaxes ev) eqn:Ei.
    2:{ rewrite move_ignored; [cbn [fst]; rewrite Ed; exact Hl |]. intros (_ & _ & H). congruence. }
    assert (Hlive : move_live st ev) by (repeat split; congruence).
    specialize (Hl d0 eq_refl).
    assert (Hld : len_data st = Z.of_nat (List.length d0))
      by (unfold len_data; now rewrite Ed).
    destruct Ho as (Ho0 & Ho1).
    destruct (int_clamp_bounds (len_data st - 1) (xdata ev)) as (Hx0 & Hx1 & _).
    destruct (drag_type st) as [[| |] |] eqn:Et.
    + destruct (move_start_range st ev Hlive Et) as (_ & He & Hc).
      cbv zeta in *. rewrite He, Hc, Ed. intros d [= <-].
      match goal with |- context [?a >=? ?b] => destruct (Z.geb_spec a b) end;
        lia.
    + destruct (move_end_range st ev Hlive Et) as (_ & He & Hc).
      cbv zeta in *. rewrite He, Hc, Ed. intros d [= <-].
      match goal with |- context [?a >=? ?b] => destruct (Z.geb_spec a b) end;
        lia.
    + destruct (drag_offset st) as [off |] eqn:Eo.
      * destruct (whole_span_result st ev off) as (Hc & Hlow & Hhigh & Hmid);
          try assumption; [lia | lia |].
        cbv zeta in *. rewrite Hc, Ed. intros d [= <-].
        set (t := B64.rnd _) in *.
        destruct (Qlt_le_dec 0 t) as [H0 | H0];
          [| destruct (Hlow (or_introl H0)) as (_ & Ee); lia].
        destruct (Z_lt_le_dec 0 (len_data st - (end_idx st - start_idx st)))
          as [HL | HL];
          [| destruct (Hlow (or_intror HL)) as (_ & Ee); lia].
        destruct (Qlt_le_dec t
                    (inject_Z (len_data st - (end_idx st - start_idx st))))
          as [H1 | H1].
        -- destruct (Hmid H0 H1) as (_ & _ & _ & Ee). lia.
        -- destruct (Hhigh HL H1) as (_ & Ee). lia.
      * unfold on_mouse_move. rewrite Ed, Eg, Ei, Et, Eo. cbn [fst negb orb].
        rewrite Ed. intros d [= <-]. exact Hl.
    + unfold on_mouse_move. rewrite Ed, Eg, Ei, Et. cbn [fst negb orb].
      destruct (redraw_fields st) as (_ & Re & Rc & _).
      cbv zeta in *. rewrite Re, Rc, Ed. intros d [= <-].
      match goal with |- context [?a >=? ?b] => destruct (Z.geb_spec a b) end;
        lia.
  - exact Hl.
  - destruct (copy_fields fault st) as (_ & He & Hc & _).
    cbv zeta in *. now rewrite He, Hc.
Qed.

Lemma run_within_length (es : list Event) :
  forall st,
    ordered st /\ within_length st /\ len_data st <= 2 ^ 53 ->
    no_empty_selection es st = true ->
    short_columns es st = true ->
    ordered (run es st) /\ within_length (run es st).
Proof.
  induction es as [| e es IH]; intros st H Hc Hs; simpl.
  - destruct H as (Ho & Hl & _). now split.
  - simpl in Hc, Hs.
    apply andb_true_iff in Hc. destruct Hc as (Hc1 & Hc2).
    apply andb_true_iff in Hs. destruct Hs as (Hs1 & Hs2).
    apply Z.leb_le in Hs1.
    apply IH; [| exact Hc2 | exact Hs2].
    destruct (step_within_length e st H) as (Ho' & Hl').
    + destruct e; try exact I. now apply negb_true_iff in Hc1.
    + split; [exact Ho' | split; [exact Hl' | exact Hs1]].
Qed.

(** In a session where no column selection stops in the empty-column branch
    and no column has more than [2^53] values, the range always satisfies
    [0 <= start < end <= length] once a column is loaded: [end_idx] exceeds
    the last index by at most one. *)
Theorem range_within_length (es : list Event) :
  no_empty_selection es init = true ->
  short_columns es init = true ->
  ordered (run es init) /\ within_length (run es init).
Proof.
  intros Hc Hs. apply run_within_length; [| exact Hc | exact Hs].
  split; [unfold ordered, init; simpl; lia |].
  split; [intros d H; discriminate H | vm_compute; discriminate].
Qed.

(** ** What a column load displays *)

(** Loading a column with [n >= 2] valid values shows the mean, as
    [np.mean] computes it, of its first [min(20000, n - 1) + 1] values, with
    the rectangle over [0, min(20000, n - 1)], whatever was loaded or
    selected before. *)
Theorem load_shows_leading_mean
  (st : WaveformAnalyzer) (t : DataFrame) (c : Column) :
  df st = Some t ->
  col_var st <> ""%string ->
  lookup_column (col_var st) t = Some c ->
  let d := dropna c in
  let e := Z.min 20000 (Z.of_nat (List.length d) - 1) in
  2 <= Z.of_nat (List.length d) ->
  let st' := fst (load_column_data st) in
  col_data st' = Some d /\
  selection_rect st' = Some (0, e) /\
  mean_var st' =
    (label_prefix ++ format_float (np_mean (data_range d 0 e)))%string.
Proof.
  intros Hdf Hname Hcol d e Hn. cbv zeta.
  unfold load_column_data. rewrite Hdf.
  destruct (String.eqb_spec (col_var st) ""); [contradiction |].
  rewrite Hcol.
  change (len_data (set_col_data (Some (dropna c)) st))
    with (Z.of_nat (List.length d)).
  destruct (Z.eqb_spec (Z.of_nat (List.length d)) 0); [lia |].
  cbn [fst].
  match goal with
  | |- context [_calculate_mean (_draw_selection_rect ?s)] => set (st3 := s)
  end.
  assert (He3 : end_idx st3 = e) by reflexivity.
  assert (Hs3 : start_idx st3 = 0) by reflexivity.
  assert (Hc3 : col_data st3 = Some d) by reflexivity.
  destruct (redraw_fields st3) as (Rs & Re & Rc & _).
  pose proof (redraw_rect st3) as Rr.
  destruct (draw_selection_rect_fields st3) as (Ds & De & Dc & _).
  cbv zeta in *.
  rewrite Hs3, He3 in Re, De.
  assert (Hge : (0 >=? e) = false).
  { destruct (Z.geb_spec 0 e); [subst e; lia | reflexivity]. }
  rewrite Hge in Re, De.
  split; [now rewrite Rc |].
  split; [rewrite Rr, Rs, Re, Hs3; reflexivity |].
  destruct (calculate_mean_cases (_draw_selection_rect st3) d)
    as [(Hle & _) | (_ & ->)].
  - now rewrite Dc.
  - cbv zeta in Hle. rewrite Ds, De, Hs3 in Hle. subst e. lia.
  - cbn [mean_var set_mean_var]. rewrite Ds, De, Hs3.
    replace (Z.max 0 0) with 0 by reflexivity.
    replace (Z.min (Z.of_nat (List.length d) - 1) e) with e by (subst e; lia).
    destruct (slice_is_data_range d 0 e) as (-> & _);
      [lia | subst e; lia | subst e; lia |].
    reflexivity.
Qed.

(** ** What the callbacks leave alone *)

Lemma redraw_hint (st : WaveformAnalyzer) :
  copy_hint_var (_calculate_mean (_draw_selection_rect st)) = copy_hint_var st.
Proof.
  assert (Hd : copy_hint_var (_draw_selection_rect st) = copy_hint_var st).
  { unfold _draw_selection_rect. cbn.
    destruct (start_idx st >=? end_idx st); reflexivity. }
  rewrite <- Hd. unfold _calculate_mean.
  destruct (col_data (_draw_selection_rect st)); [| reflexivity].
  match goal with |- context [if ?b then _ else _] => destruct b end;
    reflexivity.
Qed.

(** Only the copy button touches the clipboard and the hint: every other
    callback leaves the clipboard, the log of clipboard calls and the hint
    text as they were. *)
Theorem only_copy_touches_clipboard (e : Event) (st : WaveformAnalyzer) :
  (forall fault : TkFault, e <> CopyClicked fault) ->
  clipboard (step e st) = clipboard st /\
  clip_log (step e st) = clip_log st /\
  copy_hint_var (step e st) = copy_hint_var st.
Proof.
  intros Hne.
  destruct e as [picked | name | ev | ev | ev | fault]; simpl.
  - destruct picked; repeat split.
  - destruct (load_cases (set_col_var name st))
      as [-> | [-> | [(c & -> & _) |
                      (c & st3 & -> & _ & _ & _ & _ & _ & _ & _ & Hb & Hl & Hh)]]];
      cbn [fst]; try (repeat split; reflexivity).
    destruct (redraw_fields st3) as (_ & _ & _ & _ & _ & _ & Rb & Rl).
    cbv zeta in *. rewrite Rb, Rl, redraw_hint, Hb, Hl, Hh. repeat split.
  - destruct (press_cases ev st) as [-> | (_ & [-> | [-> | (off & ->)]])];
      repeat split.
  - destruct (move_cases ev st)
      as [-> | [(-> & _) | (st0 & -> & _ & _ & _ & _ & _ & Hb & Hl & Hh)]];
      cbn [fst]; try (repeat split; reflexivity).
    destruct (redraw_fields st0) as (_ & _ & _ & _ & _ & _ & Rb & Rl).
    cbv zeta in *. rewrite Rb, Rl, redraw_hint, Hb, Hl, Hh. repeat split.
  - repeat split.
  - now elim (Hne fault).
Qed.

(** A press and a release write the three drag fields and nothing else:
    the column, the range, the rectangle, the display, the hint and the
    clipboard are the old ones. *)
Theorem press_release_frame (ev : MouseEvent) (st : WaveformAnalyzer) :
  (let st' := on_mouse_press ev st in
   st' = set_drag_offset (drag_offset st')
           (set_drag (is_dragging st') (drag_type st') st)) /\
  (let st' := on_mouse_release ev st in
   st' = set_drag_offset (drag_offset st')
           (set_drag (is_dragging st') (drag_type st') st)).
Proof.
  split; cbv zeta.
  - destruct (press_cases ev st) as [-> | (_ & [-> | [-> | (off & ->)]])];
      destruct st; reflexivity.
  - destruct st; reflexivity.
Qed.

(** After a release, pointer moves change nothing, however many follow,
    until the next press. *)
Theorem moves_after_release_ignored
  (evs : list MouseEvent) (ev : MouseEvent) (st : WaveformAnalyzer) :
  run (map MotionNotify evs) (on_mouse_release ev st) = on_mouse_release ev st.
Proof.
  induction evs as [| e evs IH]; [reflexivity |].
  cbn [map run fold_left step].
  rewrite move_ignored.
  - exact IH.
  - intros (_ & H & _). discriminate H.
Qed.

(** ** When the placeholder is shown *)

(** With a column loaded, [_calculate_mean] shows the placeholder exactly
    when the clamped range is degenerate,
    [min(length - 1, end_idx) <= max(0, start_idx)]; so a column with fewer
    than two values never gets a mean, whatever the range. *)
Theorem placeholder_iff_degenerate (st : WaveformAnalyzer) (d : list f64) :
  col_data st = Some d ->
  let len := Z.of_nat (List.length d) in
  (mean_var (_calculate_mean st) = placeholder_text <->
   Z.min (len - 1) (end_idx st) <= Z.max 0 (start_idx st)) /\
  (len <= 1 -> mean_var (_calculate_mean st) = placeholder_text).
Proof.
  intros Hd len.
  assert (Hiff :
    mean_var (_calculate_mean st) = placeholder_text <->
    Z.min (len - 1) (end_idx st) <= Z.max 0 (start_idx st)).
  { destruct (calculate_mean_cases st d Hd) as [(Hle & ->) | (Hlt & ->)];
      cbv zeta in *; fold len in Hle || fold len in Hlt.
    - split; [intros _; exact Hle | reflexivity].
    - split; [| lia].
      cbn [mean_var set_mean_var]. intros E. exfalso.
      exact (float_text_not_placeholder _ E). }
  split; [exact Hiff |].
  intros Hlen. apply Hiff. lia.
Qed.


(** ** Opening a file *)

Section Suffixes.

Local Open Scope string_scope.
Local Open Scope nat_scope.

Lemma length_app (p s : string) :
  String.length (p ++ s) = String.length p + String.length s.
Proof.
  induction p as [| c p IH]; simpl; [reflexivity | now rewrite IH].
Qed.

Lemma substring_app_skip (p s : string) (m k : nat) :
  substring (String.length p + m) k (p ++ s) = substring m k s.
Proof.
  induction p as [| c p IH]; simpl; [reflexivity | exact IH].
Qed.

Lemma substring_split (s : string) (m k : nat) :
  m + k = String.length s ->
  s = substring 0 m s ++ substring m k s.
Proof.
  revert m. induction s as [| c s IH]; intros m H; simpl in H.
  - assert (m = 0) by lia. assert (k = 0) by lia. subst. reflexivity.
  - destruct m as [| m].
    + simpl in H. subst k. cbn [substring append].
      now rewrite substring_all.
    + cbn [substring append]. f_equal. apply IH. lia.
Qed.

Lemma endswith_app (suf p : string) : endswith suf (p ++ suf) = true.
Proof.
  unfold endswith. rewrite length_app.
  apply andb_true_iff. split; [apply Nat.leb_le; lia |].
  replace (String.length p + String.length suf - String.length suf)
    with (String.length p + 0) by lia.
  rewrite substring_app_skip, substring_all. apply String.eqb_refl.
Qed.

Lemma endswith_inv (suf s : string) :
  endswith suf s = true -> exists p, s = p ++ suf.
Proof.
  unfold endswith. intros H. apply andb_true_iff in H as (Hk & He).
  apply Nat.leb_le in Hk. apply String.eqb_eq in He.
  exists (substring 0 (String.length s - String.length suf) s).
  pose proof (substring_split s (String.length s - String.length suf)
                (String.length suf)) as Hs.
  rewrite He in Hs. apply Hs. lia.
Qed.

(** A suffix no longer than [t] is looked for in [t] alone. *)
Lemma endswith_tail (suf p t : string) :
  String.length suf <= String.length t ->
  endswith suf (p ++ t) = endswith suf t.
Proof.
  intros H. unfold endswith. rewrite length_app.
  replace (String.length p + String.length t - String.length suf)
    with (String.length p + (String.length t - String.length suf)) by lia.
  rewrite substring_app_skip.
  replace (String.length suf <=? String.length p + String.length t)
    with true by (symmetry; apply Nat.leb_le; lia).
  replace (String.length suf <=? String.length t)
    with true by (symmetry; apply Nat.leb_le; lia).
  reflexivity.
Qed.

Lemma append_assoc' (a b c : string) : (a ++ b) ++ c = a ++ (b ++ c).
Proof.
  induction a as [| x a IH]; simpl; [reflexivity | now rewrite IH].
Qed.

Lemma endswith_shorter (a b s : string) :
  endswith (a ++ b) s = true -> endswith b s = true.
Proof.
  intros H. destruct (endswith_inv _ _ H) as (p & ->).
  rewrite <- append_assoc'. apply endswith_app.
Qed.

Lemma csv_is_not_excel (p : string) :
  endswith ".xlsx" (p ++ ".csv") || endswith ".xls" (p ++ ".csv") = false.
Proof.
  apply orb_false_iff. split.
  - destruct (endswith ".xlsx" (p ++ ".csv")) eqn:E; [| reflexivity].
    apply (endswith_shorter ".xls" "x") in E.
    rewrite endswith_tail in E by (simpl; lia). discriminate E.
  - rewrite endswith_tail by (simpl; lia). reflexivity.
Qed.

End Suffixes.

(** [load_file] picks the reader by the end of the path, case-sensitively:
    a path ending in [.xlsx] or [.xls] goes to [read_excel], one ending in
    [.csv] to [read_csv] and never to [read_excel], any other non-empty path
    is refused with the "unsupported format" box.  Whatever happens, the
    state changes in [df] only, and only when the reader returned a table;
    a cancelled dialog, a refused path and a reader that raises leave the
    state as it was. *)
Theorem load_file_by_extension
  (read_excel read_csv : Reader) (st : WaveformAnalyzer) :
  let picked (r : string + DataFrame) :=
    match r with
    | inl _ => None
    | inr t => Some t
    end in
  load_file_path read_excel read_csv "" st = (st, NoBox) /\
  (forall stem ext : string,
      ext = ".xlsx"%string \/ ext = ".xls"%string ->
      fst (load_file_path read_excel read_csv (stem ++ ext) st) =
        load_file (picked (read_excel (stem ++ ext)%string)) st) /\
  (forall stem : string,
      fst (load_file_path read_excel read_csv (stem ++ ".csv") st) =
        load_file (picked (read_csv (stem ++ ".csv")%string)) st) /\
  (forall path : string,
      path <> ""%string ->
      endswith ".xlsx" path = false ->
      endswith ".xls" path = false ->
      endswith ".csv" path = false ->
      load_file_path read_excel read_csv path st =
        (st, ShowError "错误" "不支持的文件格式！")) /\
  (forall path : string,
      fst (load_file_path read_excel read_csv path st) = st \/
      exists t : DataFrame,
        fst (load_file_path read_excel read_csv path st) = set_df (Some t) st).
Proof.
  cbv zeta.
  assert (Hne : forall stem ext : string,
             ext <> ""%string -> String.eqb (stem ++ ext) "" = false).
  { intros stem ext H. apply String.eqb_neq.
    destruct stem; [exact H | discriminate]. }
  split; [reflexivity |].
  split; [| split; [| split]].
  - intros stem ext Hext. unfold load_file_path.
    rewrite Hne by (destruct Hext as [-> | ->]; discriminate).
    assert (Hx : endswith ".xlsx" (stem ++ ext) || endswith ".xls" (stem ++ ext)
                 = true).
    { apply orb_true_iff.
      destruct Hext as [-> | ->]; [left | right]; apply endswith_app. }
    rewrite Hx. destruct (read_excel (stem ++ ext)%string); reflexivity.
  - intros stem. unfold load_file_path.
    rewrite Hne by discriminate.
    rewrite csv_is_not_excel, endswith_app.
    destruct (read_csv (stem ++ ".csv")%string); reflexivity.
  - intros path Hp H1 H2 H3. unfold load_file_path.
    destruct (String.eqb_spec path ""); [contradiction |].
    now rewrite H1, H2, H3.
  - intros path. unfold load_file_path.
    destruct (String.eqb path ""); [now left |].
    destruct (endswith ".xlsx" path || endswith ".xls" path).
    { destruct (read_excel path); [now left | right; eexists; reflexivity]. }
    destruct (endswith ".csv" path); [| now left].
    destruct (read_csv path); [now left | right; eexists; reflexivity].
Qed.


End Program.

(** * The program on sample inputs *)

(** The examples below run the program with [sample_mean] in the place of
    [np.mean].  Every cell of the sample tables is a small integer, so that
    any order of summation gives the same sum, and the same mean. *)

Lemma selection_invariant_by_design_witness :
  selection_invariant
    (fst (load_column_data sample_mean
            (set_col_var "a" (load_file (Some table_one) init))))
  /\ selection_invariant
       (fst (on_mouse_move sample_mean (at_x 2)
               (on_mouse_press (at_x 4) (opened sample_mean table_one "a")))).
Proof.
  destruct (selection_invariant_by_design sample_mean) as (_ & Hload & Hmove).
  split.
  - apply (Hload _ table_one [Fin 1; Fin 2; Fin 3; Fin 4; Fin 5]);
      [reflexivity | discriminate | reflexivity | vm_compute; discriminate].
  - apply Hmove.
    + vm_compute. repeat split; discriminate.
    + vm_compute. discriminate.
Defined.

(** C1 fails as stated: a column with a single valid value is loaded, the
    range becomes [(0, 1)] and [end] exceeds [length - 1 = 0]. *)
Lemma selection_invariant_fails_single_value :
  let st :=
    run sample_mean [FileOpened (Some table_one); ComboboxSelected "single"]
      init in
  len_data st = 1 /\ start_idx st = 0 /\ end_idx st = 1 /\
  ~ selection_invariant st.
Proof.
  vm_compute. repeat split; try reflexivity.
  intros (_ & H). apply H. reflexivity.
Qed.


(** C3, evaluated: on a column of 2001 values the range starts as
    [(0, 2000)]; a press at 1000 grabs the whole span with offset 1000, and a
    move to 2000 puts the range at [(1, 2001)]: [end] equals the length and
    lies outside [0, length - 1].  The mean plays no part in it. *)
Theorem move_whole_span_overshoots (np_mean : list f64 -> f64) :
  let st0 := opened np_mean table_wide "w" in
  let st1 := on_mouse_press (at_x 1000) st0 in
  let st2 := fst (on_mouse_move np_mean (at_x 2000) st1) in
  len_data st0 = 2001 /\ start_idx st0 = 0 /\ end_idx st0 = 2000 /\
  drag_type st1 = Some DragMove /\
  len_data st2 = 2001 /\ start_idx st2 = 1 /\ end_idx st2 = 2001 /\
  ~ end_idx st2 <= len_data st2 - 1.
Proof.
  vm_compute. repeat split; try reflexivity.
  intros H. apply H. reflexivity.
Qed.

(** C4, evaluated: on a column of 3001 values the end edge is dragged to
    2500, which leaves the range [(0, 2500)].  A press at 1003.6 grabs the
    whole span and a move to 1303.6 asks for the start
    [1303.6 - 1003.6], which is just below 300 in binary64; adding the width
    gives exactly 2800.0.  The two ends are truncated one by one: the range
    becomes [(299, 2800)] and the width goes from 2500 to 2501. *)
Theorem move_whole_span_widens (np_mean : list f64 -> f64) :
  let st0 :=
    run np_mean
      [ButtonPress (at_x 3000); MotionNotify (at_x 2500);
       ButtonRelease (at_x 2500)]
      (opened np_mean table_long "w") in
  let st1 := on_mouse_press (at_x (10036 # 10)) st0 in
  let st2 := fst (on_mouse_move np_mean (at_x (13036 # 10)) st1) in
  len_data st0 = 3001 /\ start_idx st0 = 0 /\ end_idx st0 = 2500 /\
  drag_type st1 = Some DragMove /\
  start_idx st1 = 0 /\ end_idx st1 = 2500 /\
  start_idx st2 = 299 /\ end_idx st2 = 2800 /\
  end_idx st2 - start_idx st2 <> end_idx st1 - start_idx st1.
Proof.
  vm_compute. repeat split; try reflexivity.
  discriminate.
Qed.

Lemma load_column_data_reset_witness :
  let st := set_col_var "a" (load_file (Some table_one) init) in
  snd (load_column_data sample_mean st) = Returned /\
  start_idx (fst (load_column_data sample_mean st)) = 0 /\
  end_idx (fst (load_column_data sample_mean st)) = 4.
Proof.
  apply (load_column_data_reset sample_mean
           (set_col_var "a" (load_file (Some table_one) init)) table_one
           [Fin 1; Fin 2; Fin 3; Fin 4; Fin 5]);
    [reflexivity | discriminate | reflexivity | vm_compute; discriminate].
Defined.

(** C5 fails as stated: a column of length 1 is not refused; the call
    returns normally with the range [(0, 1)]. *)
Lemma load_column_data_accepts_single_value :
  let st := set_col_var "single" (load_file (Some table_one) init) in
  len_data (fst (load_column_data sample_mean st)) = 1 /\
  snd (load_column_data sample_mean st) = Returned /\
  start_idx (fst (load_column_data sample_mean st)) = 0 /\
  end_idx (fst (load_column_data sample_mean st)) = 1 /\
  end_idx (fst (load_column_data sample_mean st)) <> Z.min 20000 (1 - 1).
Proof.
  vm_compute. repeat split; discriminate.
Qed.

Lemma press_hit_test_witness :
  let st := set_end_idx 3 (opened sample_mean table_one "a") in
  let st' := on_mouse_press (at_x 2) st in
  is_dragging st' = true /\ drag_type st' = Some DragStart.
Proof.
  apply (press_hit_test (set_end_idx 3 (opened sample_mean table_one "a"))
           (at_x 2) [Fin 1; Fin 2; Fin 3; Fin 4; Fin 5]);
    reflexivity.
Defined.

(** C6 fails as stated: with the range [(1200, 3000)], reached by dragging
    the start edge, a press at [200 + 2^-45] is at a distance below 1000 from
    [start_idx]; the program computes the difference [-1000.0], finds it
    outside the tolerance, and starts no drag. *)
Lemma press_inside_tolerance_not_grabbed :
  let st :=
    run sample_mean
      [ButtonPress (at_x 0); MotionNotify (at_x 1200);
       ButtonRelease (at_x 1200)]
      (opened sample_mean table_long "w") in
  let ev := at_x (200 + B64.pow2 (-45)) in
  start_idx st = 1200 /\ end_idx st = 3000 /\
  (xdata ev == 200 + B64.pow2 (-45))%Q /\
  (Qabs (xdata ev - inject_Z (start_idx st)) < inject_Z 1000)%Q /\
  on_mouse_press ev st = st /\
  is_dragging (on_mouse_press ev st) = false /\
  drag_type (on_mouse_press ev st) <> Some DragStart.
Proof.
  vm_compute. repeat split; try reflexivity.
  discriminate.
Qed.

Lemma release_and_leave_witness :
  on_mouse_release outside (opened sample_mean table_one "a") =
    opened sample_mean table_one "a" /\
  on_mouse_move sample_mean outside
    (on_mouse_press (at_x 4) (opened sample_mean table_one "a")) =
    (on_mouse_press (at_x 4) (opened sample_mean table_one "a"), Returned).
Proof.
  split.
  - apply (release_and_leave sample_mean (opened sample_mean table_one "a")
             outside);
      reflexivity.
  - apply (release_and_leave sample_mean
             (on_mouse_press (at_x 4) (opened sample_mean table_one "a"))
             outside).
    reflexivity.
Defined.

(** C7 fails as stated: after a press on the start edge, a move with the
    pointer outside the axes leaves the drag active; and after a whole-span
    drag, the release leaves the recorded offset in place. *)
Lemma drag_survives_leaving_axes :
  (let st := on_mouse_press (at_x 4) (opened sample_mean table_one "a") in
   is_dragging st = true /\
   is_dragging (fst (on_mouse_move sample_mean outside st)) = true /\
   drag_type (fst (on_mouse_move sample_mean outside st)) = Some DragStart) /\
  (let st := on_mouse_press (at_x 1000) (opened sample_mean table_wide "w") in
   drag_offset st = Some (inject_Z 1000) /\
   drag_offset (on_mouse_release (at_x 1000) st) = Some (inject_Z 1000)).
Proof.
  vm_compute. repeat split.
Qed.

Lemma copy_outcomes_witness :
  (let r :=
     copy_result_to_clipboard FailAppend
       (opened sample_mean table_one "single") in
   copy_hint_var (fst r) = "暂无有效数据"%string /\ clip_log (fst r) = []) /\
  (let r :=
     copy_result_to_clipboard NoFault (opened sample_mean table_one "a") in
   clipboard (fst r) = "3.0000"%string).
Proof.
  split.
  - destruct (proj1 (copy_outcomes (opened sample_mean table_one "single"))
                FailAppend)
      as (_ & Hh & _ & Hl); [reflexivity |].
    split; [exact Hh | exact Hl].
  - destruct (proj2 (copy_outcomes (opened sample_mean table_one "a")) 3%Q)
      as (_ & _ & Hc & _); [reflexivity |].
    exact Hc.
Defined.

(** C9, evaluated: with the column [1, 2, 3, 4, 5] loaded, selecting a
    column whose cells are all missing ends in the [AttributeError] of the
    lookup [messagebox.warning]; the range and the displayed mean stay, but
    [col_data] has already been replaced by the empty sequence. *)
Theorem empty_column_replaces_col_data (np_mean : list f64 -> f64) :
  let st0 := opened np_mean table_one "a" in
  let r := load_column_data np_mean (set_col_var "empty" st0) in
  col_data st0 = Some [Fin 1; Fin 2; Fin 3; Fin 4; Fin 5] /\
  snd r = Raised AttributeError /\
  start_idx (fst r) = start_idx st0 /\
  end_idx (fst r) = end_idx st0 /\
  mean_var (fst r) = mean_var st0 /\
  col_data (fst r) = Some [] /\
  col_data (fst r) <> col_data st0.
Proof.
  cbv zeta.
  split; [vm_compute; reflexivity |].
  split; [vm_compute; reflexivity |].
  split; [vm_compute; reflexivity |].
  split; [vm_compute; reflexivity |].
  split; [reflexivity |].
  split; [vm_compute; reflexivity |].
  vm_compute. discriminate.
Qed.

Lemma calculate_mean_total_witness :
  _calculate_mean sample_mean init = init /\
  _calculate_mean sample_mean
    (set_end_idx 20000 (opened sample_mean table_one "a")) =
    set_mean_var "选中区域平均值：3.0000"
      (set_end_idx 20000 (opened sample_mean table_one "a")).
Proof.
  split.
  - apply (calculate_mean_total sample_mean init). reflexivity.
  - destruct (proj2 (calculate_mean_total sample_mean
                       (set_end_idx 20000 (opened sample_mean table_one "a")))
                [Fin 1; Fin 2; Fin 3; Fin 4; Fin 5] eq_refl)
      as [(Hle & _) | (_ & _ & _ & _ & _ & _ & ->)].
    + vm_compute in Hle. exfalso. apply Hle. reflexivity.
    + vm_compute. reflexivity.
Defined.

Lemma start_drag_range_witness :
  let st := on_mouse_press (at_x 1) (opened sample_mean table_one "a") in
  start_idx (fst (on_mouse_move sample_mean (at_x (5 # 2)) st)) = 2 /\
  end_idx (fst (on_mouse_move sample_mean (at_x (5 # 2)) st)) = 4.
Proof.
  destruct (start_drag_range sample_mean
              (on_mouse_press (at_x 1) (opened sample_mean table_one "a"))
              (at_x (5 # 2)))
    as (He & _ & _ & Hs & _).
  - vm_compute. repeat split; discriminate.
  - vm_compute. repeat split; discriminate.
  - reflexivity.
  - split; [apply Hs; vm_compute; congruence | exact He].
Defined.

Lemma end_drag_range_witness :
  let st :=
    set_drag true (Some DragEnd) (opened sample_mean table_one "a") in
  start_idx (fst (on_mouse_move sample_mean (at_x (-3)) st)) = 0 /\
  end_idx (fst (on_mouse_move sample_mean (at_x (-3)) st)) = 1.
Proof.
  destruct (end_drag_range sample_mean
              (set_drag true (Some DragEnd) (opened sample_mean table_one "a"))
              (at_x (-3)))
    as (Hs & _ & He & _).
  - vm_compute. repeat split; discriminate.
  - vm_compute. repeat split; discriminate.
  - reflexivity.
  - split; [exact Hs | apply He; reflexivity].
Defined.

Lemma whole_span_bounds_witness :
  let st :=
    on_mouse_press (at_x 1200)
      (set_end_idx 2500 (opened sample_mean table_long "w")) in
  let st' := fst (on_mouse_move sample_mean (at_x 1300) st) in
  2500 <= end_idx st' - start_idx st' <= 2501.
Proof.
  destruct (whole_span_bounds sample_mean
              (on_mouse_press (at_x 1200)
                 (set_end_idx 2500 (opened sample_mean table_long "w")))
              (at_x 1300) 1200%Q)
    as (_ & Hw & _).
  - vm_compute. repeat split; discriminate.
  - vm_compute. discriminate.
  - vm_compute. repeat split; discriminate.
  - reflexivity.
  - reflexivity.
  - exact Hw.
Defined.

Lemma whole_span_shift_witness :
  let st := set_end_idx 2500 (opened sample_mean table_long "w") in
  let st' :=
    fst (on_mouse_move sample_mean (at_x 1300)
           (on_mouse_press (at_x 1200) st)) in
  start_idx st' = 100 /\ end_idx st' = 2600.
Proof.
  apply (whole_span_shift sample_mean
           (set_end_idx 2500 (opened sample_mean table_long "w"))
           (at_x 1200) (at_x 1300) (repeat (Fin 1) 3001) 100);
    try reflexivity;
    try (vm_compute; repeat split; discriminate).
Defined.

Lemma display_follows_range_witness :
  display_in_sync sample_mean
    (run sample_mean
       [FileOpened (Some table_one); ComboboxSelected "a";
        ButtonPress (at_x 4); MotionNotify (at_x 2)] init).
Proof.
  apply (display_follows_range sample_mean). vm_compute. reflexivity.
Defined.

Lemma range_within_length_witness :
  end_idx
    (run sample_mean
       [FileOpened (Some table_wide); ComboboxSelected "w";
        ButtonPress (at_x 1000); MotionNotify (at_x 2000)] init) <= 2001.
Proof.
  refine (proj2 (range_within_length sample_mean
                   [FileOpened (Some table_wide); ComboboxSelected "w";
                    ButtonPress (at_x 1000); MotionNotify (at_x 2000)] _ _)
            (repeat (Fin 1) 2001) _);
    vm_compute; reflexivity.
Defined.

Lemma load_shows_leading_mean_witness :
  mean_var (opened sample_mean table_one "a") =
    "选中区域平均值：3.0000"%string.
Proof.
  apply (load_shows_leading_mean sample_mean
           (set_col_var "a" (load_file (Some table_one) init)) table_one
           [Fin 1; Fin 2; Fin 3; Fin 4; Fin 5]);
    [reflexivity | discriminate | reflexivity | vm_compute; discriminate].
Defined.

Lemma only_copy_touches_clipboard_witness :
  clipboard
    (step sample_mean (MotionNotify (at_x 2))
       (on_mouse_press (at_x 4) (opened sample_mean table_one "a"))) =
    ""%string.
Proof.
  apply (only_copy_touches_clipboard sample_mean (MotionNotify (at_x 2))
           (on_mouse_press (at_x 4) (opened sample_mean table_one "a"))).
  intros fault. discriminate.
Defined.

Lemma placeholder_iff_degenerate_witness :
  mean_var
    (_calculate_mean sample_mean
       (set_end_idx 700 (opened sample_mean table_one "single"))) =
    placeholder_text.
Proof.
  apply (placeholder_iff_degenerate sample_mean
           (set_end_idx 700 (opened sample_mean table_one "single")) [Fin 7]);
    [reflexivity | vm_compute; discriminate].
Defined.

Lemma load_file_by_extension_witness :
  let rx : Reader := fun _ => inr table_wide in
  let rc : Reader := fun _ => inr table_one in
  df (fst (load_file_path rx rc "data.xlsx" init)) = Some table_wide /\
  df (fst (load_file_path rx rc "data.xls.csv" init)) = Some table_one /\
  load_file_path rx rc "DATA.CSV" init =
    (init, ShowError "错误" "不支持的文件格式！").
Proof.
  cbv zeta.
  destruct (load_file_by_extension (fun _ => inr table_wide)
              (fun _ => inr table_one) init)
    as (_ & Hx & Hc & Hr & _).
  split; [| split].
  - exact (f_equal df (Hx "data"%string ".xlsx"%string (or_introl eq_refl))).
  - exact (f_equal df (Hc "data.xls"%string)).
  - apply Hr; [discriminate | reflexivity | reflexivity | reflexivity].
Defined.
